(** * wrale-fleet-metal: the server package (construction, lifecycle, HTTP handlers)

    The repository holds two revisions of [package server]:
    - the "main fleet-metal server", wiring gpio, power, thermal and the
      [secure] tamper manager, together with [routes] and the two handlers
      ([Module Metal]);
    - the "integration layer", wiring gpio, power, thermal, the core [state]
      manager and [diagnostics] ([Module Integration]).
    Both have the same [Run]; they differ in the monitors they construct and
    start.  The hardware packages, [net/http], [context], [log] and
    [encoding/json] are outside the repository: their calls appear here as
    events, and what they return is supplied by the environment. *)

From Stdlib Require Import ZArith Lia.
From stdpp Require Import base decidable option list gmap strings.

Local Open Scope Z_scope.

(** ** Go error values *)

(** [fmt.Errorf] without the %w verb builds an [errorString]; with one %w verb
    it builds a [wrapError] that remembers the error it wraps.  A nil [error]
    is [None] in [option error]. *)
Inductive error : Type :=
| errorString (text : string)
| wrapError (prefix : string) (err : error).

Global Instance error_eq_dec : EqDecision error.
Proof. solve_decision. Defined.

(** The message of [fmt.Errorf("<prefix>: %w", err)]. *)
Fixpoint Error (e : error) : string :=
  match e with
  | errorString text => text
  | wrapError prefix err => prefix +:+ ": " +:+ Error err
  end.

(** [errors.Unwrap]. *)
Definition Unwrap (e : error) : option error :=
  match e with
  | errorString _ => None
  | wrapError _ err => Some err
  end.

(** Sentinel errors of the Go library that the code compares with or receives. *)
Definition http_ErrServerClosed : error := errorString "http: Server closed".
Definition context_DeadlineExceeded : error := errorString "context deadline exceeded".

(** ** Handles of the collaborator packages

    The server only stores the pointers the constructors return and calls
    methods on them; a handle is the identity of the object. *)
Record gpio_Controller := GpioAt { gpio_addr : nat }.
Record power_Manager := PowerAt { power_addr : nat }.
Record thermal_Monitor := ThermalAt { thermal_addr : nat }.
Record secure_Manager := SecureAt { secure_addr : nat }.
Record state_Manager := StateAt { state_addr : nat }.
Record diagnostics_Manager := DiagAt { diag_addr : nat }.

(** The configuration literals [New] passes.  The callback fields of the
    second revision ([OnPowerCritical], [OnWarning], [OnCritical],
    [OnTamper]) are closures that only call [log.Printf]; [callbacks] records
    whether the literal carries them. *)
Record power_Config := { power_GPIO : gpio_Controller; power_DeviceID : string; power_callbacks : bool }.
Record thermal_Config := { thermal_GPIO : gpio_Controller; thermal_DeviceID : string; thermal_callbacks : bool }.
Record secure_Config := { secure_GPIO : gpio_Controller; secure_DeviceID : string; secure_callbacks : bool }.
Record state_Config := { state_DeviceID : string }.
Record diagnostics_Config := { diagnostics_DeviceID : string; diagnostics_GPIO : gpio_Controller }.

(** What the constructors of the collaborator packages answer: the value or
    the error of Go's [(T, error)] pair. *)
Record Platform := {
  gpio_New : error + gpio_Controller;
  power_New : power_Config -> error + power_Manager;
  thermal_New : thermal_Config -> error + thermal_Monitor;
  secure_New : secure_Config -> error + secure_Manager;
  state_New : state_Config -> error + state_Manager;
  diagnostics_New : diagnostics_Config -> error + diagnostics_Manager
}.

(** The constructor calls [New] makes, in the order it makes them. *)
Inductive Call : Type :=
| CallGpioNew
| CallPowerNew (cfg : power_Config)
| CallThermalNew (cfg : thermal_Config)
| CallSecureNew (cfg : secure_Config)
| CallStateNew (cfg : state_Config)
| CallDiagnosticsNew (cfg : diagnostics_Config).

Inductive Package := PkgGpio | PkgPower | PkgThermal | PkgSecure | PkgState | PkgDiagnostics.

Global Instance Package_eq_dec : EqDecision Package.
Proof. solve_decision. Defined.

Definition package_of (c : Call) : Package :=
  match c with
  | CallGpioNew => PkgGpio
  | CallPowerNew _ => PkgPower
  | CallThermalNew _ => PkgThermal
  | CallSecureNew _ => PkgSecure
  | CallStateNew _ => PkgState
  | CallDiagnosticsNew _ => PkgDiagnostics
  end.

(** Whether the platform's constructor fails on the configuration of a call. *)
Definition call_error (hw : Platform) (c : Call) : option error :=
  match c with
  | CallGpioNew => match gpio_New hw with inl e => Some e | inr _ => None end
  | CallPowerNew cfg => match power_New hw cfg with inl e => Some e | inr _ => None end
  | CallThermalNew cfg => match thermal_New hw cfg with inl e => Some e | inr _ => None end
  | CallSecureNew cfg => match secure_New hw cfg with inl e => Some e | inr _ => None end
  | CallStateNew cfg => match state_New hw cfg with inl e => Some e | inr _ => None end
  | CallDiagnosticsNew cfg => match diagnostics_New hw cfg with inl e => Some e | inr _ => None end
  end.

(** ** The construction monad: a log of constructor calls and early return *)

Definition Build (A : Type) : Type := list Call -> list Call * (error + A).

Definition build_ret {A} (a : A) : Build A := fun calls => (calls, inr a).

Definition build_bind {A B} (m : Build A) (k : A -> Build B) : Build B :=
  fun calls =>
    match m calls with
    | (calls', inl e) => (calls', inl e)
    | (calls', inr a) => k a calls'
    end.

(** [return nil, err]. *)
Definition build_fail {A} (e : error) : Build A := fun calls => (calls, inl e).

(** [v, err := pkg.New(...); if err != nil { return nil, fmt.Errorf("<prefix>: %w", err) }]. *)
Definition construct {A} (c : Call) (answer : error + A) (prefix : string) : Build A :=
  fun calls =>
    match answer with
    | inl e => (calls ++ [c], inl (wrapError prefix e))
    | inr a => (calls ++ [c], inr a)
    end.

Notation "x <- m ;; k" := (build_bind m (fun x => k))
  (at level 100, m at next level, right associativity).

(** Go's result pair (server pointer, error) and the calls made on the way. *)
Definition go_pair {A} (m : Build A) : (option A * option error) * list Call :=
  match m [] with
  | (calls, inl e) => ((None, Some e), calls)
  | (calls, inr a) => ((Some a, None), calls)
  end.

(** ** sync.RWMutex and http.Server *)

(** The write lock is held by at most one caller of [Run] (its index in the
    table of calls); read locks are counted. *)
Record RWMutex := { writer : option nat; readers : nat }.

Definition unlocked : RWMutex := {| writer := None; readers := 0 |}.

(** The handlers registered by [routes]. *)
Inductive HandlerFunc := HandleHealth | HandleStatus.

Record http_Server := {
  Addr : string;
  Handler : list (string * HandlerFunc);
  inShutdown : bool;   (* set by Shutdown *)
  listening : bool     (* a listener is bound and accepting *)
}.

(** The struct literal [&http.Server{Addr: ..., Handler: ...}]. *)
Definition http_Server_lit (addr : string) (h : list (string * HandlerFunc)) : http_Server :=
  {| Addr := addr; Handler := h; inShutdown := false; listening := false |}.

(** [routes]: a fresh [ServeMux] with the two patterns. *)
Definition routes : list (string * HandlerFunc) :=
  [("/health", HandleHealth); ("/api/v1/status", HandleStatus)].

(** [Config] of package server (the same in both revisions). *)
Record Config := { DeviceID : string; HTTPAddr : string }.

(** The subsystems that are monitored. *)
Inductive Subsystem := Power | Thermal | Security | StateManager | Diagnostics.

(** ** The status data model and the handlers' environment *)

(** A [float64] is its IEEE 754 bit pattern; the handlers only copy floats
    and hand them to the JSON encoder, which looks at whether they are
    finite (exponent bits not all ones). *)
Definition float64 : Type := Z.

Definition float64_exponent (f : float64) : Z := Z.land (Z.shiftr f 52) 2047.

Definition float64_finite (f : float64) : bool := negb (float64_exponent f =? 2047).

(** The snapshots of the collaborator packages, with the fields the handler
    reads. *)
Record power_PowerState := {
  PowerState_BatteryLevel : float64;
  PowerState_Charging : bool;
  PowerState_Voltage : float64
}.

Record thermal_ThermalState := {
  ThermalState_CPUTemp : float64;
  ThermalState_GPUTemp : float64;
  ThermalState_AmbientTemp : float64;
  ThermalState_FanSpeed : Z;
  ThermalState_Throttled : bool
}.

Record secure_TamperState := {
  TamperState_CaseOpen : bool;
  TamperState_MotionDetected : bool;
  TamperState_VoltageNormal : bool
}.

(** A [time.Time] as the wall clock gives it: seconds and nanoseconds since
    the Unix epoch. *)
Record time_Time := { unixSec : Z; nsec : Z }.

(** Seconds from January 1, year 1 to the Unix epoch. *)
Definition unixToInternal : Z := (1969 * 365 + 1969 / 4 - 1969 / 100 + 1969 / 400) * 86400.

(** [Time.IsZero]: the instant is January 1, year 1, 00:00:00 UTC. *)
Definition IsZero (t : time_Time) : bool :=
  (unixSec t + unixToInternal =? 0) && (nsec t =? 0).

(** What the handler's calls into its collaborators return while one
    request is served. *)
Record Env := {
  power_GetState : power_Manager -> power_PowerState;
  thermal_GetState : thermal_Monitor -> thermal_ThermalState;
  secure_GetState : secure_Manager -> secure_TamperState;
  time_Now : time_Time
}.

Record PowerStatus := {
  BatteryLevel : float64;
  Charging : bool;
  Voltage : float64
}.

Record ThermalStatus := {
  CPUTemp : float64;
  GPUTemp : float64;
  AmbientTemp : float64;
  FanSpeed : Z;
  Throttled : bool
}.

Record SecurityStatus := {
  CaseOpen : bool;
  MotionDetected : bool;
  VoltageNormal : bool
}.

Record HealthStatus := {
  Power_ : PowerStatus;
  Thermal_ : ThermalStatus;
  Security_ : SecurityStatus
}.

(** [SystemStatus]; the JSON names are those of the struct tags. *)
Record SystemStatus := {
  Status_DeviceID : string;
  Status_Time : time_Time;
  Health : HealthStatus
}.

(** JSON documents, as a tree.  Strings are the Go strings given to the
    encoder; the bytes (escapes, the trailing newline) are [encoding/json]'s. *)
#[warnings="-register-all"] Inductive JSON : Type :=
| JString (s : string)
| JFloat (f : float64)
| JInt (n : Z)
| JBool (b : bool)
| JTime (t : time_Time)
| JObject (fields : list (string * JSON)).

Definition SystemStatus_json (st : SystemStatus) : JSON :=
  JObject
    [("device_id", JString (Status_DeviceID st));
     ("time", JTime (Status_Time st));
     ("health", JObject
        [("power", JObject
            [("battery_level", JFloat (BatteryLevel (Power_ (Health st))));
             ("charging", JBool (Charging (Power_ (Health st))));
             ("voltage", JFloat (Voltage (Power_ (Health st))))]);
         ("thermal", JObject
            [("cpu_temp", JFloat (CPUTemp (Thermal_ (Health st))));
             ("gpu_temp", JFloat (GPUTemp (Thermal_ (Health st))));
             ("ambient_temp", JFloat (AmbientTemp (Thermal_ (Health st))));
             ("fan_speed", JInt (FanSpeed (Thermal_ (Health st))));
             ("throttled", JBool (Throttled (Thermal_ (Health st))))]);
         ("security", JObject
            [("case_open", JBool (CaseOpen (Security_ (Health st))));
             ("motion_detected", JBool (MotionDetected (Security_ (Health st))));
             ("voltage_normal", JBool (VoltageNormal (Security_ (Health st))))])])].

(** [encoding/json] refuses a NaN or an infinity with an
    [UnsupportedValueError]; every other value of these types encodes. *)
Fixpoint json_supported (j : JSON) : bool :=
  match j with
  | JFloat f => float64_finite f
  | JObject fields =>
      (fix all (l : list (string * JSON)) : bool :=
         match l with
         | [] => true
         | (_, x) :: l' => json_supported x && all l'
         end) fields
  | _ => true
  end.

Definition json_UnsupportedValueError : error := errorString "json: unsupported value".

(** [Encoder.Encode]: the document is written only when all of it encodes. *)
Definition json_Encode (j : JSON) : error + JSON :=
  if json_supported j then inr j else inl json_UnsupportedValueError.

(** Reading a member back, as the decoder of the client does. *)
Definition json_member (name : string) (j : JSON) : option JSON :=
  match j with
  | JObject fields =>
      match list_find (λ kv, fst kv = name) fields with
      | Some (_, (_, x)) => Some x
      | None => None
      end
  | _ => None
  end.

Record Request := { Method : string; Path : string }.

Definition http_MethodGet : string := "GET".
Definition http_StatusOK : Z := 200.
Definition http_StatusMethodNotAllowed : Z := 405.
Definition http_StatusNotFound : Z := 404.

(** What a handler writes with [w.Write]: the text of [http.Error] or a
    JSON document of the encoder. *)
Inductive Chunk := Text (s : string) | Document (j : JSON).

(** The [http.ResponseWriter]: the header map, the status once
    [WriteHeader] ran, and what was written. *)
Record ResponseWriter := {
  header : list (string * string);
  status : option Z;
  written : list Chunk
}.

Definition new_writer : ResponseWriter := {| header := []; status := None; written := [] |}.

(** What the handler did, in order. *)
Inductive Op : Type :=
| OpRLock
| OpRUnlock
| OpGetState (m : Subsystem)
| OpNow
| OpHeaderSet (key value : string)
| OpWriteHeader (code : Z)
| OpWrite (c : Chunk)
| OpEncode (j : JSON).

(** The response the client receives: [net/http] sends 200 when the handler
    returns without [WriteHeader]. *)
Record Response := { Code : Z; Headers : list (string * string); Body : list Chunk }.

Definition response_of (w : ResponseWriter) : Response :=
  {| Code := default http_StatusOK (status w); Headers := header w; Body := written w |}.

(** ** The handler monad: the response writer and the log of operations *)

Definition Handle (A : Type) : Type := ResponseWriter * list Op -> A * (ResponseWriter * list Op).

Definition handle_ret {A} (a : A) : Handle A := fun st => (a, st).

Definition handle_bind {A B} (m : Handle A) (k : A -> Handle B) : Handle B :=
  fun st => let '(a, st') := m st in k a st'.

Notation "x <~ m ;; k" := (handle_bind m (fun x => k))
  (at level 100, m at next level, right associativity).
Notation "m ;;; k" := (handle_bind m (fun _ => k))
  (at level 100, right associativity).

Definition op {A} (o : Op) (a : A) : Handle A := fun '(w, ops) => (a, (w, ops ++ [o])).

(** [w.Header().Set(key, value)]. *)
Definition Header_Set (key value : string) : Handle unit :=
  fun '(w, ops) =>
    (tt, ({| header := (key, value) :: filter (λ kv, fst kv ≠ key) (header w);
             status := status w; written := written w |},
          ops ++ [OpHeaderSet key value])).

(** [w.WriteHeader(code)]; only the first call counts. *)
Definition WriteHeader (code : Z) : Handle unit :=
  fun '(w, ops) =>
    (tt, ({| header := header w;
             status := Some (default code (status w));
             written := written w |},
          ops ++ [OpWriteHeader code])).

(** [w.Write]; the first write without a status sends 200. *)
Definition Write (c : Chunk) : Handle unit :=
  fun '(w, ops) =>
    (tt, ({| header := header w;
             status := Some (default http_StatusOK (status w));
             written := written w ++ [c] |},
          ops ++ [OpWrite c])).

Definition newline : string := String (Ascii.ascii_of_nat 10) EmptyString.

(** [http.Error(w, text, code)]. *)
Definition http_Error (text : string) (code : Z) : Handle unit :=
  Header_Set "Content-Type" "text/plain; charset=utf-8" ;;;
  Header_Set "X-Content-Type-Options" "nosniff" ;;;
  WriteHeader code ;;;
  Write (Text (text +:+ newline)).

(** [json.NewEncoder(w).Encode(v)]: the error is returned to the caller. *)
Definition Encode (j : JSON) : Handle (option error) :=
  op (OpEncode j) tt ;;;
  match json_Encode j with
  | inr doc => Write (Document doc) ;;; handle_ret None
  | inl err => handle_ret (Some err)
  end.

(** The handler's run on a fresh writer: the response and the operations. *)
Definition serve (h : Handle unit) : Response * list Op :=
  let '(_, (w, ops)) := h (new_writer, []) in (response_of w, ops).

(** Whether the read lock is held when the [k]-th operation runs. *)
Definition is_rlock (o : Op) : bool := match o with OpRLock => true | _ => false end.
Definition is_runlock (o : Op) : bool := match o with OpRUnlock => true | _ => false end.
Definition rlocks_before (ops : list Op) (k : nat) : nat :=
  length (filter (λ o, is_rlock o = true) (take k ops)).
Definition runlocks_before (ops : list Op) (k : nat) : nat :=
  length (filter (λ o, is_runlock o = true) (take k ops)).
Definition lock_held (ops : list Op) (k : nat) : bool :=
  bool_decide (runlocks_before ops k < rlocks_before ops k)%nat.

(** ** [New], second revision: gpio, power, thermal, secure *)
Module Metal.

Record Server := {
  mux : RWMutex;
  gpio : gpio_Controller;
  power : power_Manager;
  security : secure_Manager;
  thermal : thermal_Monitor;
  deviceID : string;
  httpServer : http_Server;
  started : bool
}.

Definition build (cfg : Config) (hw : Platform) : Build Server :=
  if decide (DeviceID cfg = "") then build_fail (errorString "device ID is required") else
  gpioCtrl <- construct CallGpioNew (gpio_New hw) "failed to initialize GPIO" ;;
  let pcfg := {| power_GPIO := gpioCtrl; power_DeviceID := DeviceID cfg; power_callbacks := true |} in
  powerMgr <- construct (CallPowerNew pcfg) (power_New hw pcfg)
                "failed to initialize power management" ;;
  let tcfg := {| thermal_GPIO := gpioCtrl; thermal_DeviceID := DeviceID cfg; thermal_callbacks := true |} in
  thermalMgr <- construct (CallThermalNew tcfg) (thermal_New hw tcfg)
                  "failed to initialize thermal management" ;;
  let scfg := {| secure_GPIO := gpioCtrl; secure_DeviceID := DeviceID cfg; secure_callbacks := true |} in
  securityMgr <- construct (CallSecureNew scfg) (secure_New hw scfg)
                   "failed to initialize security management" ;;
  build_ret {| mux := unlocked;
               gpio := gpioCtrl;
               power := powerMgr;
               security := securityMgr;
               thermal := thermalMgr;
               deviceID := DeviceID cfg;
               httpServer := http_Server_lit (HTTPAddr cfg) routes;
               started := false |}.

Definition New (hw : Platform) (cfg : Config) : (option Server * option error) * list Call :=
  go_pair (build cfg hw).

(** The order of construction, and the text that names each package in
    [New]'s error. *)
Definition order : list Package := [PkgGpio; PkgPower; PkgThermal; PkgSecure].

Definition failure_text (p : Package) : string :=
  match p with
  | PkgGpio => "failed to initialize GPIO"
  | PkgPower => "failed to initialize power management"
  | PkgThermal => "failed to initialize thermal management"
  | PkgSecure => "failed to initialize security management"
  | PkgState => ""
  | PkgDiagnostics => ""
  end.

(** [handleHealth]. *)
Definition handleHealth (s : Server) (env : Env) (r : Request) : Handle unit :=
  if decide (Method r ≠ http_MethodGet) then
    http_Error "Method not allowed" http_StatusMethodNotAllowed
  else
    Header_Set "Content-Type" "application/json" ;;;
    _ <~ Encode (JObject [("status", JString "ok")]) ;;
    handle_ret tt.

(** [handleStatus]; the deferred [RUnlock] runs when the function returns. *)
Definition handleStatus (s : Server) (env : Env) (r : Request) : Handle unit :=
  if decide (Method r ≠ http_MethodGet) then
    http_Error "Method not allowed" http_StatusMethodNotAllowed
  else
    op OpRLock tt ;;;
    powerState <~ op (OpGetState Power) (power_GetState env (power s)) ;;
    thermalState <~ op (OpGetState Thermal) (thermal_GetState env (thermal s)) ;;
    securityState <~ op (OpGetState Security) (secure_GetState env (security s)) ;;
    now <~ op OpNow (time_Now env) ;;
    let status :=
      {| Status_DeviceID := deviceID s;
         Status_Time := now;
         Health :=
           {| Power_ := {| BatteryLevel := PowerState_BatteryLevel powerState;
                           Charging := PowerState_Charging powerState;
                           Voltage := PowerState_Voltage powerState |};
              Thermal_ := {| CPUTemp := ThermalState_CPUTemp thermalState;
                             GPUTemp := ThermalState_GPUTemp thermalState;
                             AmbientTemp := ThermalState_AmbientTemp thermalState;
                             FanSpeed := ThermalState_FanSpeed thermalState;
                             Throttled := ThermalState_Throttled thermalState |};
              Security_ := {| CaseOpen := TamperState_CaseOpen securityState;
                              MotionDetected := TamperState_MotionDetected securityState;
                              VoltageNormal := TamperState_VoltageNormal securityState |} |} |} in
    Header_Set "Content-Type" "application/json" ;;;
    _ <~ Encode (SystemStatus_json status) ;;
    op OpRUnlock tt.

(** The [ServeMux] of [routes]: a request goes to the handler registered for
    exactly its path, and to [http.NotFound] when there is none. *)
Definition ServeHTTP (s : Server) (env : Env) (r : Request) : Handle unit :=
  match snd <$> list_find (λ kv, fst kv = Path r) (Handler (httpServer s)) with
  | Some (_, HandleHealth) => handleHealth s env r
  | Some (_, HandleStatus) => handleStatus s env r
  | None => http_Error "404 page not found" http_StatusNotFound
  end.

(** The mutable fields of the server, which [Run] works on. *)
Definition lifecycle_fields (s : Server) : bool * RWMutex * http_Server :=
  (started s, mux s, httpServer s).

End Metal.

(** ** [New], first revision: gpio, power, thermal, state, diagnostics *)
Module Integration.

Record Server := {
  mux : RWMutex;
  deviceID : string;
  httpAddr : string;
  gpio : gpio_Controller;
  power : power_Manager;
  thermal : thermal_Monitor;
  state : state_Manager;
  diag : diagnostics_Manager;
  httpServer : http_Server;
  started : bool
}.

(** [routes] is not defined in this revision's file; [handler] stands for
    what [s.routes()] returns there. *)
Definition build (handler : list (string * HandlerFunc)) (cfg : Config) (hw : Platform)
  : Build Server :=
  if decide (DeviceID cfg = "") then build_fail (errorString "device ID is required") else
  gpioCtrl <- construct CallGpioNew (gpio_New hw) "failed to initialize GPIO" ;;
  let pcfg := {| power_GPIO := gpioCtrl; power_DeviceID := DeviceID cfg; power_callbacks := false |} in
  powerMgr <- construct (CallPowerNew pcfg) (power_New hw pcfg)
                "failed to initialize power manager" ;;
  let tcfg := {| thermal_GPIO := gpioCtrl; thermal_DeviceID := DeviceID cfg; thermal_callbacks := false |} in
  thermalMgr <- construct (CallThermalNew tcfg) (thermal_New hw tcfg)
                  "failed to initialize thermal manager" ;;
  let stcfg := {| state_DeviceID := DeviceID cfg |} in
  stateMgr <- construct (CallStateNew stcfg) (state_New hw stcfg)
                "failed to initialize state manager" ;;
  let dcfg := {| diagnostics_DeviceID := DeviceID cfg; diagnostics_GPIO := gpioCtrl |} in
  diagMgr <- construct (CallDiagnosticsNew dcfg) (diagnostics_New hw dcfg)
               "failed to initialize diagnostics" ;;
  build_ret {| mux := unlocked;
               deviceID := DeviceID cfg;
               httpAddr := HTTPAddr cfg;
               gpio := gpioCtrl;
               power := powerMgr;
               thermal := thermalMgr;
               state := stateMgr;
               diag := diagMgr;
               httpServer := http_Server_lit (HTTPAddr cfg) handler;
               started := false |}.

Definition New (handler : list (string * HandlerFunc)) (hw : Platform) (cfg : Config)
  : (option Server * option error) * list Call :=
  go_pair (build handler cfg hw).

Definition order : list Package := [PkgGpio; PkgPower; PkgThermal; PkgState; PkgDiagnostics].

Definition failure_text (p : Package) : string :=
  match p with
  | PkgGpio => "failed to initialize GPIO"
  | PkgPower => "failed to initialize power manager"
  | PkgThermal => "failed to initialize thermal manager"
  | PkgState => "failed to initialize state manager"
  | PkgDiagnostics => "failed to initialize diagnostics"
  | PkgSecure => ""
  end.

End Integration.

(** ** The lifecycle: [Run] and the goroutines it starts *)

Inductive Variant := MetalServer | IntegrationServer.

(** The bodies of the [go func() { ... }()] statements of [Run]. *)
Inductive GoStmt := GoMonitor (m : Subsystem) | GoListenAndServe.

Global Instance Subsystem_eq_dec : EqDecision Subsystem.
Proof. solve_decision. Defined.
Global Instance GoStmt_eq_dec : EqDecision GoStmt.
Proof. solve_decision. Defined.

(** The [go] statements of [Run], in program order. *)
Definition go_stmts (v : Variant) : list GoStmt :=
  match v with
  | MetalServer =>
      [GoMonitor Power; GoMonitor Thermal; GoMonitor Security; GoListenAndServe]
  | IntegrationServer =>
      [GoMonitor Power; GoMonitor Thermal; GoMonitor StateManager;
       GoMonitor Diagnostics; GoListenAndServe]
  end.

(** The text before ": %v" in each goroutine's [log.Printf]. *)
Definition log_text (g : GoStmt) : string :=
  match g with
  | GoMonitor Power => "Power monitoring error"
  | GoMonitor Thermal => "Thermal monitoring error"
  | GoMonitor Security => "Security monitoring error"
  | GoMonitor StateManager => "State manager error"
  | GoMonitor Diagnostics => "Diagnostics error"
  | GoListenAndServe => "HTTP server error"
  end.

Definition log_line (g : GoStmt) (err : error) : string :=
  log_text g +:+ ": " +:+ Error err.

(** [time.Duration] counts nanoseconds. *)
Definition time_Second : Z := 1000000000.

(** [30*time.Second], the timeout of [shutdownCtx]. *)
Definition gracePeriod : Z := 30 * time_Second.

(** What [http.Server.Shutdown] meets: the listeners close with [lnerr] and
    the connections are idle after [d] nanoseconds, or they never are. *)
Inductive Drain := DrainsAfter (d : Z) (lnerr : option error) | NeverDrains.

(** [http.Server.Shutdown(ctx)] for a context that expires after [timeout]:
    the listener error once every connection is idle, [ctx.Err()] when the
    context expires first. *)
Definition http_Shutdown (timeout : Z) (d : Drain) : option error :=
  match d with
  | DrainsAfter t lnerr => if t <=? timeout then lnerr else Some context_DeadlineExceeded
  | NeverDrains => Some context_DeadlineExceeded
  end.

Definition ErrAlreadyStarted : error := errorString "server already started".

(** [if err := s.httpServer.Shutdown(shutdownCtx); err != nil { return fmt.Errorf(...: %w, err) }; return nil] *)
Definition shutdown_result (r : option error) : option error :=
  match r with
  | Some err => Some (wrapError "error shutting down HTTP server" err)
  | None => None
  end.

(** Where a call of [Run] stands. *)
Inductive RunPC : Type :=
| AtLock                      (* s.mux.Lock() *)
| AtCheck                     (* if s.started *)
| AtRejectUnlock              (* s.mux.Unlock(); return fmt.Errorf("server already started") *)
| AtSetStarted                (* s.started = true *)
| AtUnlock                    (* s.mux.Unlock() *)
| AtGo (k : nat)              (* the k-th go statement *)
| AtWait                      (* <-ctx.Done() *)
| AtShutdown                  (* context.WithTimeout; s.httpServer.Shutdown(shutdownCtx) *)
| InShutdown (timeout : Z)    (* inside Shutdown *)
| Returned (r : option error).

Global Instance RunPC_eq_dec : EqDecision RunPC.
Proof. solve_decision. Defined.

Record RunCall := { rctx : nat; rpc : RunPC }.

(** Where a goroutine stands: inside [Monitor]/[Run]/[ListenAndServe] before
    anything happened, serving on a bound listener, or finished. *)
Inductive GoPC := Running | Serving | Exited.

Global Instance GoPC_eq_dec : EqDecision GoPC.
Proof. solve_decision. Defined.

Record Goroutine := { body : GoStmt; gctx : nat; gpc : GoPC }.

Inductive Event : Type :=
| EvListen (addr : string)          (* ListenAndServe tried to bind *)
| EvLog (line : string)             (* log.Printf *)
| EvShutdown (timeout : Z)          (* Shutdown was called *)
| EvShutdownReturns (r : option error).

Global Instance Event_eq_dec : EqDecision Event.
Proof. solve_decision. Defined.

(** The mutable fields of the [Server], the contexts that are cancelled, the
    calls of [Run], the goroutines, and what has happened so far. *)
Record World := {
  started : bool;
  mux : RWMutex;
  httpServer : http_Server;
  done : gset nat;
  calls : list RunCall;
  goroutines : list Goroutine;
  events : list Event
}.

Definition with_started (b : bool) (w : World) : World :=
  {| started := b; mux := mux w; httpServer := httpServer w; done := done w;
     calls := calls w; goroutines := goroutines w; events := events w |}.
Definition with_mux (m : RWMutex) (w : World) : World :=
  {| started := started w; mux := m; httpServer := httpServer w; done := done w;
     calls := calls w; goroutines := goroutines w; events := events w |}.
Definition with_http (h : http_Server) (w : World) : World :=
  {| started := started w; mux := mux w; httpServer := h; done := done w;
     calls := calls w; goroutines := goroutines w; events := events w |}.
Definition with_done (d : gset nat) (w : World) : World :=
  {| started := started w; mux := mux w; httpServer := httpServer w; done := d;
     calls := calls w; goroutines := goroutines w; events := events w |}.
Definition with_calls (c : list RunCall) (w : World) : World :=
  {| started := started w; mux := mux w; httpServer := httpServer w; done := done w;
     calls := c; goroutines := goroutines w; events := events w |}.
Definition with_goroutines (g : list Goroutine) (w : World) : World :=
  {| started := started w; mux := mux w; httpServer := httpServer w; done := done w;
     calls := calls w; goroutines := g; events := events w |}.
Definition emit (e : Event) (w : World) : World :=
  {| started := started w; mux := mux w; httpServer := httpServer w; done := done w;
     calls := calls w; goroutines := goroutines w; events := events w ++ [e] |}.

Definition set_pc (i : nat) (c : RunCall) (pc : RunPC) (w : World) : World :=
  with_calls (<[i := {| rctx := rctx c; rpc := pc |}]> (calls w)) w.

Definition set_gpc (t : nat) (g : Goroutine) (pc : GoPC) (w : World) : World :=
  with_goroutines (<[t := {| body := body g; gctx := gctx g; gpc := pc |}]> (goroutines w)) w.

Definition spawn (g : GoStmt) (ctx : nat) (w : World) : World :=
  with_goroutines (goroutines w ++ [{| body := g; gctx := ctx; gpc := Running |}]) w.

Definition set_writer (o : option nat) (m : RWMutex) : RWMutex :=
  {| writer := o; readers := readers m |}.

Definition set_readers (n : nat) (m : RWMutex) : RWMutex :=
  {| writer := writer m; readers := n |}.

(** [Shutdown] marks the server and closes its listeners. *)
Definition begin_shutdown (h : http_Server) : http_Server :=
  {| Addr := Addr h; Handler := Handler h; inShutdown := true; listening := false |}.

Definition set_listening (b : bool) (h : http_Server) : http_Server :=
  {| Addr := Addr h; Handler := Handler h; inShutdown := inShutdown h; listening := b |}.

(** One step of the [i]-th call of [Run], which is [c]; [None] when the call
    is blocked (the lock is taken, the context is not cancelled, Shutdown has
    not returned) or has returned. *)
Definition Run_from (v : Variant) (i : nat) (c : RunCall) (w : World) : option World :=
  match rpc c with
  | AtLock =>
      if decide (writer (mux w) = None ∧ readers (mux w) = 0%nat)
      then Some (set_pc i c AtCheck (with_mux (set_writer (Some i) (mux w)) w))
      else None
  | AtCheck =>
      if started w then Some (set_pc i c AtRejectUnlock w)
      else Some (set_pc i c AtSetStarted w)
  | AtRejectUnlock =>
      Some (set_pc i c (Returned (Some ErrAlreadyStarted))
              (with_mux (set_writer None (mux w)) w))
  | AtSetStarted => Some (set_pc i c AtUnlock (with_started true w))
  | AtUnlock => Some (set_pc i c (AtGo 0) (with_mux (set_writer None (mux w)) w))
  | AtGo k =>
      match go_stmts v !! k with
      | Some g => Some (set_pc i c (AtGo (S k)) (spawn g (rctx c) w))
      | None => Some (set_pc i c AtWait w)
      end
  | AtWait =>
      if decide (rctx c ∈ done w) then Some (set_pc i c AtShutdown w) else None
  | AtShutdown =>
      Some (set_pc i c (InShutdown gracePeriod)
              (emit (EvShutdown gracePeriod)
                 (with_http (begin_shutdown (httpServer w)) w)))
  | InShutdown _ => None
  | Returned _ => None
  end.

Definition Run (v : Variant) (i : nat) (w : World) : option World :=
  c ← calls w !! i; Run_from v i c w.

(** [Shutdown] returns to the [i]-th call of [Run], which returns in turn. *)
Definition Run_after_Shutdown (i : nat) (d : Drain) (w : World) : option World :=
  c ← calls w !! i;
  match rpc c with
  | InShutdown timeout =>
      let r := http_Shutdown timeout d in
      Some (set_pc i c (Returned (shutdown_result r)) (emit (EvShutdownReturns r) w))
  | _ => None
  end.

(** The goroutine of a monitor: [if err := m.Monitor(ctx); err != nil { log.Printf(...) }]. *)
Definition monitor_returns (t : nat) (r : option error) (w : World) : option World :=
  g ← goroutines w !! t;
  match body g, gpc g with
  | GoMonitor _, Running =>
      Some (set_gpc t g Exited
              (match r with
               | Some err => emit (EvLog (log_line (body g) err)) w
               | None => w
               end))
  | _, _ => None
  end.

(** [if err := s.httpServer.ListenAndServe(); err != http.ErrServerClosed { log.Printf(...) }] *)
Definition log_unless_closed (err : error) (w : World) : World :=
  if decide (err = http_ErrServerClosed) then w
  else emit (EvLog (log_line GoListenAndServe err)) w.

(** [ListenAndServe] starts: after [Shutdown] it returns [ErrServerClosed] at
    once; otherwise it tries to bind, and a bind error [r] is its result.
    The test of the shutdown flag and the bind are one step here; in
    net/http they are two, and a [Shutdown] may fall between them. *)
Definition listen (t : nat) (r : option error) (w : World) : option World :=
  g ← goroutines w !! t;
  match body g, gpc g with
  | GoListenAndServe, Running =>
      if inShutdown (httpServer w)
      then Some (set_gpc t g Exited (log_unless_closed http_ErrServerClosed w))
      else
        let w1 := emit (EvListen (Addr (httpServer w))) w in
        match r with
        | Some err => Some (set_gpc t g Exited (log_unless_closed err w1))
        | None => Some (set_gpc t g Serving (with_http (set_listening true (httpServer w)) w1))
        end
  | _, _ => None
  end.

(** A serving [ListenAndServe] returns [err]: [ErrServerClosed] only after
    [Shutdown], an accept error otherwise. *)
Definition serve_returns (t : nat) (err : error) (w : World) : option World :=
  g ← goroutines w !! t;
  match body g, gpc g with
  | GoListenAndServe, Serving =>
      if decide (err = http_ErrServerClosed ∧ inShutdown (httpServer w) = false) then None
      else Some (set_gpc t g Exited
                   (log_unless_closed err (with_http (set_listening false (httpServer w)) w)))
  | _, _ => None
  end.

(** What can happen: the scheduler picks a call of [Run] or a goroutine, the
    environment calls [Run], cancels a context, lets a collaborator return,
    or a request handler takes or drops the read lock. *)
Inductive Action : Type :=
| CallRun (ctx : nat)
| RunStep (i : nat)
| ShutdownReturns (i : nat) (d : Drain)
| Cancel (ctx : nat)
| MonitorReturns (t : nat) (r : option error)
| Listen (t : nat) (r : option error)
| ServeReturns (t : nat) (err : error)
| HandlerRLock
| HandlerRUnlock.

Definition step (v : Variant) (a : Action) (w : World) : option World :=
  match a with
  | CallRun ctx => Some (with_calls (calls w ++ [{| rctx := ctx; rpc := AtLock |}]) w)
  | RunStep i => Run v i w
  | ShutdownReturns i d => Run_after_Shutdown i d w
  | Cancel ctx => Some (with_done ({[ctx]} ∪ done w) w)
  | MonitorReturns t r => monitor_returns t r w
  | Listen t r => listen t r w
  | ServeReturns t err => serve_returns t err w
  | HandlerRLock =>
      if decide (writer (mux w) = None)
      then Some (with_mux (set_readers (S (readers (mux w))) (mux w)) w)
      else None
  | HandlerRUnlock =>
      match readers (mux w) with
      | O => None
      | S n => Some (with_mux (set_readers n (mux w)) w)
      end
  end.

Fixpoint exec (v : Variant) (tr : list Action) (w : World) : option World :=
  match tr with
  | [] => Some w
  | a :: tr' => w' ← step v a w; exec v tr' w'
  end.

(** The world right after [New]: nothing started, nothing locked. *)
Definition fresh (addr : string) (h : list (string * HandlerFunc)) : World :=
  {| started := false; mux := unlocked; httpServer := http_Server_lit addr h;
     done := ∅; calls := []; goroutines := []; events := [] |}.

Inductive reachable (v : Variant) (w0 : World) : World -> Prop :=
| reach_here : reachable v w0 w0
| reach_step w a w' : reachable v w0 w -> step v a w = Some w' -> reachable v w0 w'.

(** ** Invariants of the lifecycle *)

(** The call holds the write lock. *)
Definition in_cs (pc : RunPC) : bool :=
  match pc with
  | AtCheck | AtRejectUnlock | AtSetStarted | AtUnlock => true
  | _ => false
  end.

(** The call found [started] false: it is the one that runs the server. *)
Definition accepted (pc : RunPC) : bool :=
  match pc with
  | AtSetStarted | AtUnlock | AtGo _ | AtWait | AtShutdown | InShutdown _ => true
  | Returned None => true
  | Returned (Some (wrapError _ _)) => true
  | _ => false
  end.

(** The call found [started] true. *)
Definition rejected (pc : RunPC) : bool :=
  match pc with
  | AtRejectUnlock => true
  | Returned (Some (errorString _)) => true
  | _ => false
  end.

(** How many [go] statements the call has run. *)
Definition spawned (v : Variant) (pc : RunPC) : nat :=
  match pc with
  | AtGo k => k
  | AtWait | AtShutdown | InShutdown _ | Returned _ => length (go_stmts v)
  | _ => 0
  end.

(** The call is past [<-ctx.Done()]. *)
Definition past_wait (pc : RunPC) : bool :=
  match pc with
  | AtShutdown | InShutdown _ | Returned _ => true
  | _ => false
  end.

(** The call has called [Shutdown]. *)
Definition past_shutdown (pc : RunPC) : bool :=
  match pc with
  | InShutdown _ | Returned _ => true
  | _ => false
  end.

Definition is_shutdown_event (e : Event) : bool :=
  match e with
  | EvShutdown _ | EvShutdownReturns _ => true
  | _ => false
  end.

Definition is_listen_event (e : Event) : bool :=
  match e with
  | EvListen _ => true
  | _ => false
  end.

(** The [Shutdown] events an accepted call has caused. *)
Definition shutdowns (pc : RunPC) : list Event :=
  match pc with
  | InShutdown t => [EvShutdown t]
  | Returned None => [EvShutdown gracePeriod; EvShutdownReturns None]
  | Returned (Some (wrapError _ err)) => [EvShutdown gracePeriod; EvShutdownReturns (Some err)]
  | _ => []
  end.

(** The return values [Run] can produce. *)
Definition run_result (pc : RunPC) : Prop :=
  match pc with
  | InShutdown t => t = gracePeriod
  | Returned r =>
      r = Some ErrAlreadyStarted ∨ ∃ x : option error, r = shutdown_result x
  | _ => True
  end.

(** What the world looks like to the accepted call [c]. *)
Record history (v : Variant) (c : RunCall) (w : World) : Prop := {
  hist_bodies : body <$> goroutines w = take (spawned v (rpc c)) (go_stmts v);
  hist_ctx : Forall (λ x, x = rctx c) (gctx <$> goroutines w);
  hist_shutdowns : filter (λ e, is_shutdown_event e = true) (events w) = shutdowns (rpc c);
  hist_inShutdown : inShutdown (httpServer w) = past_shutdown (rpc c);
  hist_done : past_wait (rpc c) = true → rctx c ∈ done w;
  hist_started : rpc c ≠ AtSetStarted → started w = true
}.

Record Inv (v : Variant) (w : World) : Prop := {
  inv_cs : ∀ i c, calls w !! i = Some c → in_cs (rpc c) = true → writer (mux w) = Some i;
  inv_result : ∀ i c, calls w !! i = Some c → run_result (rpc c);
  inv_rejected : ∀ i c, calls w !! i = Some c → rejected (rpc c) = true → started w = true;
  inv_unique : ∀ i j ci cj, calls w !! i = Some ci → calls w !! j = Some cj →
               accepted (rpc ci) = true → accepted (rpc cj) = true → i = j;
  inv_history : ∀ i c, calls w !! i = Some c → accepted (rpc c) = true → history v c w;
  inv_quiet : (started w = false ∧ goroutines w = [] ∧ events w = [] ∧
               inShutdown (httpServer w) = false)
              ∨ ∃ i c, calls w !! i = Some c ∧ accepted (rpc c) = true;
  inv_listen : filter (λ e, is_listen_event e = true) (events w) = [] ∨
               (length (filter (λ e, is_listen_event e = true) (events w)) = 1%nat ∧
                ∃ t g, goroutines w !! t = Some g ∧ body g = GoListenAndServe ∧
                       gpc g ≠ Running)
}.

(** ** What the statements below say about [New] and about monitor errors *)

(** [New] returned [r]: nothing or an error, never both or neither; the
    constructor calls follow [order] and stop at the first that fails, whose
    error comes back under the text [text] of its package. *)
Definition fails_fast {Srv : Type} (hw : Platform) (cfg : Config)
    (order : list Package) (text : Package -> string)
    (r : (option Srv * option error) * list Call) : Prop :=
  let srv := fst (fst r) in
  let err := snd (fst r) in
  let made := snd r in
  (srv = None ↔ err ≠ None) ∧
  (package_of <$> made) `prefix_of` order ∧
  (∀ k c, made !! k = Some c → (S k < length made)%nat → call_error hw c = None) ∧
  (DeviceID cfg = "" → made = [] ∧ err = Some (errorString "device ID is required")) ∧
  (DeviceID cfg ≠ "" → head made = Some CallGpioNew) ∧
  (err = None → package_of <$> made = order ∧ ∀ c, c ∈ made → call_error hw c = None) ∧
  (∀ e, err = Some e → DeviceID cfg ≠ "" →
     ∃ c e0, last made = Some c ∧ call_error hw c = Some e0 ∧
             e = wrapError (text (package_of c)) e0).

(** The texts tell the packages of [order] apart. *)
Definition names_package (order : list Package) (text : Package -> string) : Prop :=
  ∀ p q, p ∈ order → q ∈ order → text p = text q → p = q.

(** The same schedule with every monitor returning nil. *)
Definition without_monitor_errors (a : Action) : Action :=
  match a with
  | MonitorReturns t _ => MonitorReturns t None
  | _ => a
  end.

(** Two worlds that differ at most in what was logged. *)
Definition same_but_events (w1 w2 : World) : Prop :=
  started w1 = started w2 ∧ mux w1 = mux w2 ∧ httpServer w1 = httpServer w2 ∧
  done w1 = done w2 ∧ calls w1 = calls w2 ∧ goroutines w1 = goroutines w2.

(** [Shutdown] does not finish within [timeout]. *)
Definition exceeds (d : Drain) (timeout : Z) : Prop :=
  match d with
  | DrainsAfter t _ => timeout < t
  | NeverDrains => True
  end.

Definition is_shutdown_call (e : Event) : bool :=
  match e with
  | EvShutdown _ => true
  | _ => false
  end.

(** ** A sample deployment, for the instances of the statements *)

Definition sample_world : World := fresh ":8080" routes.

(** The world after a schedule, from the sample world. *)
Definition after (v : Variant) (tr : list Action) : World :=
  default sample_world (exec v tr sample_world).

(** One caller runs the server under context 7 up to the wait. *)
Definition sample_start (v : Variant) : list Action :=
  CallRun 7 :: replicate (5 + length (go_stmts v)) (RunStep 0).

(** Then the context is cancelled and the call gets into [Shutdown]. *)
Definition sample_stopping (v : Variant) : list Action :=
  sample_start v ++ [Cancel 7; RunStep 0; RunStep 0].

(** Then [Shutdown] returns nil at once and so does [Run]. *)
Definition sample_stopped (v : Variant) : list Action :=
  sample_stopping v ++ [ShutdownReturns 0 (DrainsAfter 0 None)].

(** A server as [New] makes it for the configuration of the package's test,
    and two environments for one request: ordinary readings, and a battery
    level that is NaN. *)
Definition sample_server : Metal.Server :=
  {| Metal.mux := unlocked;
     Metal.gpio := GpioAt 1;
     Metal.power := PowerAt 2;
     Metal.security := SecureAt 4;
     Metal.thermal := ThermalAt 3;
     Metal.deviceID := "test-device-001";
     Metal.httpServer := http_Server_lit ":0" routes;
     Metal.started := false |}.

Definition sample_env : Env :=
  {| power_GetState := λ _,
       {| PowerState_BatteryLevel := 0x4059000000000000;   (* 100.0 *)
          PowerState_Charging := true;
          PowerState_Voltage := 0x4014000000000000 |};      (* 5.0 *)
     thermal_GetState := λ _,
       {| ThermalState_CPUTemp := 0x4046800000000000;       (* 45.0 *)
          ThermalState_GPUTemp := 0x4044000000000000;       (* 40.0 *)
          ThermalState_AmbientTemp := 0x4039000000000000;   (* 25.0 *)
          ThermalState_FanSpeed := 1200;
          ThermalState_Throttled := false |};
     secure_GetState := λ _,
       {| TamperState_CaseOpen := false;
          TamperState_MotionDetected := false;
          TamperState_VoltageNormal := true |};
     time_Now := {| unixSec := 1700000000; nsec := 5 |} |}.

Definition float64_NaN : float64 := 0x7FF8000000000001.

Definition nan_env : Env :=
  {| power_GetState := λ _,
       {| PowerState_BatteryLevel := float64_NaN;
          PowerState_Charging := true;
          PowerState_Voltage := 0x4014000000000000 |};
     thermal_GetState := thermal_GetState sample_env;
     secure_GetState := secure_GetState sample_env;
     time_Now := time_Now sample_env |}.

Definition get_status : Request := {| Method := "GET"; Path := "/api/v1/status" |}.

(** Every floating-point reading of the snapshots is a number. *)
Definition finite_snapshots (s : Metal.Server) (env : Env) : Prop :=
  float64_finite (PowerState_BatteryLevel (power_GetState env (Metal.power s))) = true ∧
  float64_finite (PowerState_Voltage (power_GetState env (Metal.power s))) = true ∧
  float64_finite (ThermalState_CPUTemp (thermal_GetState env (Metal.thermal s))) = true ∧
  float64_finite (ThermalState_GPUTemp (thermal_GetState env (Metal.thermal s))) = true ∧
  float64_finite (ThermalState_AmbientTemp (thermal_GetState env (Metal.thermal s))) = true.

(** The status the handler assembles from the snapshots and the clock. *)
Definition status_of (s : Metal.Server) (env : Env) : SystemStatus :=
  let p := power_GetState env (Metal.power s) in
  let t := thermal_GetState env (Metal.thermal s) in
  let x := secure_GetState env (Metal.security s) in
  {| Status_DeviceID := Metal.deviceID s;
     Status_Time := time_Now env;
     Health :=
       {| Power_ := {| BatteryLevel := PowerState_BatteryLevel p;
                       Charging := PowerState_Charging p;
                       Voltage := PowerState_Voltage p |};
          Thermal_ := {| CPUTemp := ThermalState_CPUTemp t;
                         GPUTemp := ThermalState_GPUTemp t;
                         AmbientTemp := ThermalState_AmbientTemp t;
                         FanSpeed := ThermalState_FanSpeed t;
                         Throttled := ThermalState_Throttled t |};
          Security_ := {| CaseOpen := TamperState_CaseOpen x;
                          MotionDetected := TamperState_MotionDetected x;
                          VoltageNormal := TamperState_VoltageNormal x |} |} |}.

(** ** From [New] to [Run], and the program's entry point *)

(** The world in which a server of either revision starts its life: its
    mutable fields, no context cancelled, no call of [Run] yet. *)
Definition world_of (started0 : bool) (mux0 : RWMutex) (http0 : http_Server) : World :=
  {| started := started0; mux := mux0; httpServer := http0;
     done := ∅; calls := []; goroutines := []; events := [] |}.

Definition Metal_world (s : Metal.Server) : World :=
  world_of (Metal.started s) (Metal.mux s) (Metal.httpServer s).

Definition Integration_world (s : Integration.Server) : World :=
  world_of (Integration.started s) (Integration.mux s) (Integration.httpServer s).

(** What a goroutine started by the call with context [ctx] looks like. *)
Definition started_goroutine (ctx : nat) (g : GoStmt) : Goroutine :=
  {| body := g; gctx := ctx; gpc := Running |}.

(** One caller runs the server under [ctx]: the call, the lock, the flag,
    the go statements, up to the wait. *)
Definition run_to_wait (v : Variant) (ctx : nat) : list Action :=
  CallRun ctx :: replicate (5 + length (go_stmts v)) (RunStep 0).

(** The context is cancelled, the call shuts the listener down, and
    [Shutdown] meets [d]. *)
Definition cancel_and_stop (ctx : nat) (d : Drain) : list Action :=
  [Cancel ctx; RunStep 0; RunStep 0; ShutdownReturns 0 d].

(** A platform on which every constructor succeeds, and the configuration
    of the package's test. *)
Definition sample_platform : Platform :=
  {| gpio_New := inr (GpioAt 1);
     power_New := λ _, inr (PowerAt 2);
     thermal_New := λ _, inr (ThermalAt 3);
     secure_New := λ _, inr (SecureAt 4);
     state_New := λ _, inr (StateAt 5);
     diagnostics_New := λ _, inr (DiagAt 6) |}.

Definition sample_config : Config := {| DeviceID := "test-device-001"; HTTPAddr := ":0" |}.

(** From the world [w0] one caller runs the server under [ctx]: it starts
    every goroutine and waits; when the context is cancelled it shuts the
    listener down, which meets [d], and returns, the goroutines left as they
    were. *)
Definition runs_until_cancelled (v : Variant) (ctx : nat) (d : Drain) (w0 : World) : Prop :=
  ∃ w1 w2,
    exec v (run_to_wait v ctx) w0 = Some w1 ∧
    calls w1 = [{| rctx := ctx; rpc := AtWait |}] ∧
    goroutines w1 = started_goroutine ctx <$> go_stmts v ∧
    started w1 = true ∧ events w1 = [] ∧
    Run v 0 w1 = None ∧
    exec v (cancel_and_stop ctx d) w1 = Some w2 ∧
    calls w2 =
      [{| rctx := ctx; rpc := Returned (shutdown_result (http_Shutdown gracePeriod d)) |}] ∧
    goroutines w2 = goroutines w1 ∧
    events w2 = [EvShutdown gracePeriod; EvShutdownReturns (http_Shutdown gracePeriod d)].

(** A member of a member ... of a document. *)
Fixpoint json_path (path : list string) (j : JSON) : option JSON :=
  match path with
  | [] => Some j
  | name :: rest =>
      match json_member name j with
      | Some x => json_path rest x
      | None => None
      end
  end.

Definition get_health : Request := {| Method := "GET"; Path := "/health" |}.
Definition post_health : Request := {| Method := "POST"; Path := "/health" |}.

(** The flags that were given on the command line; [flag.String] yields the
    default for one that was not. *)
Record Flags := { flag_device_id : option string; flag_http_addr : option string }.

Definition flag_String (given : option string) (dflt : string) : string :=
  default dflt given.

(** How [main] ends, or that it got to [srv.Run]: [log.Fatal] and
    [log.Fatalf] print the message and exit with status 1. *)
Inductive Exit := ExitOK | ExitFatal (msg : string).

Inductive Startup :=
| Stopped (e : Exit)
| Up (srv : Integration.Server)
| NilServer.   (* New gave neither a server nor an error *)

(** [main] up to [srv.Run(ctx)]; [handler] is what [routes] registers. *)
Definition main_start (handler : list (string * HandlerFunc)) (hw : Platform) (f : Flags)
  : Startup * list Call :=
  let deviceID := flag_String (flag_device_id f) "" in
  let httpAddr := flag_String (flag_http_addr f) ":8080" in
  if decide (deviceID = "") then (Stopped (ExitFatal "device-id is required"), [])
  else
    match Integration.New handler hw {| DeviceID := deviceID; HTTPAddr := httpAddr |} with
    | ((_, Some err), made) =>
        (Stopped (ExitFatal ("Failed to create server: " +:+ Error err)), made)
    | ((Some srv, None), made) => (Up srv, made)
    | ((None, None), made) => (NilServer, made)
    end.

(** [if err := srv.Run(ctx); err != nil { log.Fatalf("Server error: %v", err) }]. *)
Definition main_exit (r : option error) : Exit :=
  match r with
  | Some err => ExitFatal ("Server error: " +:+ Error err)
  | None => ExitOK
  end.


(** ** Package config: the configuration from the environment *)
Module config.

Record GPIOConfig := {
  FanPin : string;
  CaseSensor : string;
  MotionSensor : string;
  VoltageSensor : string
}.

Record PowerConfig := {
  BatteryADCPath : string;
  VoltageADCPath : string;
  CurrentADCPath : string;
  WarnLevel : float64;
  CriticalLevel : float64
}.

Record ThermalConfig := {
  CPUTempPath : string;
  GPUTempPath : string;
  AmbientTempPath : string;
  FanThreshold : float64;
  WarnThreshold : float64;
  CriticalThreshold : float64
}.

(** The fields [GPIOConfig], [PowerConfig] and [ThermalConfig] of the Go
    struct are [GPIO], [Power] and [Thermal] here: their Go names are those
    of their types. *)
Record Config := {
  DeviceID : string;
  Location : string;
  LogLevel : string;
  HTTPAddr : string;
  TLSCert : string;
  TLSKey : string;
  GPIO : GPIOConfig;
  Power : PowerConfig;
  Thermal : ThermalConfig
}.

(** [os.Getenv]: the value of the variable, empty when it is not set. *)
Definition os_Getenv (env : gmap string string) (key : string) : string :=
  default "" (env !! key).

Definition getEnvOrDefault (env : gmap string string) (key defaultValue : string) : string :=
  let value := os_Getenv env key in
  if decide (value ≠ "") then value else defaultValue.

(** The float literals of [LoadConfig], as bit patterns. *)
Definition f10 : float64 := 0x4024000000000000.
Definition f20 : float64 := 0x4034000000000000.
Definition f60 : float64 := 0x404E000000000000.
Definition f70 : float64 := 0x4051800000000000.
Definition f80 : float64 := 0x4054000000000000.

Section WithParser.

(** [strconv.ParseFloat(value, 64)]: the number, or nothing when it returns
    an error. *)
Variable ParseFloat : string -> option float64.

Definition getEnvFloatOrDefault (env : gmap string string) (key : string)
    (defaultValue : float64) : float64 :=
  let value := os_Getenv env key in
  if decide (value ≠ "") then
    match ParseFloat value with
    | Some parsed => parsed
    | None => defaultValue
    end
  else defaultValue.

Definition LoadConfig (env : gmap string string) : option Config * option error :=
  let config :=
    {| DeviceID := getEnvOrDefault env "WRALE_DEVICE_ID" "";
       Location := getEnvOrDefault env "WRALE_LOCATION" "";
       LogLevel := getEnvOrDefault env "WRALE_LOG_LEVEL" "info";
       HTTPAddr := getEnvOrDefault env "WRALE_HTTP_ADDR" ":8080";
       TLSCert := getEnvOrDefault env "WRALE_TLS_CERT" "";
       TLSKey := getEnvOrDefault env "WRALE_TLS_KEY" "";
       GPIO :=
         {| FanPin := getEnvOrDefault env "WRALE_GPIO_FAN_PIN" "GPIO18";
            CaseSensor := getEnvOrDefault env "WRALE_GPIO_CASE_SENSOR" "GPIO17";
            MotionSensor := getEnvOrDefault env "WRALE_GPIO_MOTION_SENSOR" "GPIO27";
            VoltageSensor := getEnvOrDefault env "WRALE_GPIO_VOLTAGE_SENSOR" "GPIO22" |};
       Power :=
         {| BatteryADCPath :=
              getEnvOrDefault env "WRALE_POWER_BATTERY_ADC" "/sys/bus/iio/devices/iio:device0";
            VoltageADCPath :=
              getEnvOrDefault env "WRALE_POWER_VOLTAGE_ADC" "/sys/bus/iio/devices/iio:device1";
            CurrentADCPath :=
              getEnvOrDefault env "WRALE_POWER_CURRENT_ADC" "/sys/bus/iio/devices/iio:device2";
            WarnLevel := getEnvFloatOrDefault env "WRALE_POWER_WARN_LEVEL" f20;
            CriticalLevel := getEnvFloatOrDefault env "WRALE_POWER_CRITICAL_LEVEL" f10 |};
       Thermal :=
         {| CPUTempPath :=
              getEnvOrDefault env "WRALE_THERMAL_CPU_PATH" "/sys/class/thermal/thermal_zone0/temp";
            GPUTempPath :=
              getEnvOrDefault env "WRALE_THERMAL_GPU_PATH" "/sys/class/thermal/thermal_zone1/temp";
            AmbientTempPath :=
              getEnvOrDefault env "WRALE_THERMAL_AMBIENT_PATH"
                "/sys/class/thermal/thermal_zone2/temp";
            FanThreshold := getEnvFloatOrDefault env "WRALE_THERMAL_FAN_THRESHOLD" f60;
            WarnThreshold := getEnvFloatOrDefault env "WRALE_THERMAL_WARN_THRESHOLD" f70;
            CriticalThreshold :=
              getEnvFloatOrDefault env "WRALE_THERMAL_CRITICAL_THRESHOLD" f80 |} |} in
  if decide (DeviceID config = "") then (None, Some (errorString "WRALE_DEVICE_ID is required"))
  else (Some config, None).

End WithParser.

(** The variables [LoadConfig] reads. *)
Definition variables : list string :=
  ["WRALE_DEVICE_ID"; "WRALE_LOCATION"; "WRALE_LOG_LEVEL"; "WRALE_HTTP_ADDR";
   "WRALE_TLS_CERT"; "WRALE_TLS_KEY";
   "WRALE_GPIO_FAN_PIN"; "WRALE_GPIO_CASE_SENSOR"; "WRALE_GPIO_MOTION_SENSOR";
   "WRALE_GPIO_VOLTAGE_SENSOR";
   "WRALE_POWER_BATTERY_ADC"; "WRALE_POWER_VOLTAGE_ADC"; "WRALE_POWER_CURRENT_ADC";
   "WRALE_POWER_WARN_LEVEL"; "WRALE_POWER_CRITICAL_LEVEL";
   "WRALE_THERMAL_CPU_PATH"; "WRALE_THERMAL_GPU_PATH"; "WRALE_THERMAL_AMBIENT_PATH";
   "WRALE_THERMAL_FAN_THRESHOLD"; "WRALE_THERMAL_WARN_THRESHOLD";
   "WRALE_THERMAL_CRITICAL_THRESHOLD"].

(** A parser for the instances: it knows the text 25.5 and nothing else. *)
Definition sample_parser (s : string) : option float64 :=
  if decide (s = "25.5") then Some 0x4039800000000000 else None.

Definition sample_environ : gmap string string :=
  {[ "WRALE_DEVICE_ID" := "rpi-0042";
     "WRALE_LOCATION" := "";
     "WRALE_POWER_WARN_LEVEL" := "25.5";
     "WRALE_THERMAL_WARN_THRESHOLD" := "hot" ]}.

End config.

(** ** Proofs *)

Lemma go_stmts_NoDup v : NoDup (go_stmts v).
Proof. destruct v; by apply (bool_decide_unpack _). Qed.

Lemma fmap_set_body (l : list Goroutine) t g pc :
  l !! t = Some g →
  body <$> <[t := {| body := body g; gctx := gctx g; gpc := pc |}]> l = body <$> l.
Proof.
  intros H. rewrite list_fmap_insert. apply list_insert_id.
  by rewrite list_lookup_fmap, H.
Qed.

Lemma fmap_set_gctx (l : list Goroutine) t g pc :
  l !! t = Some g →
  gctx <$> <[t := {| body := body g; gctx := gctx g; gpc := pc |}]> l = gctx <$> l.
Proof.
  intros H. rewrite list_fmap_insert. apply list_insert_id.
  by rewrite list_lookup_fmap, H.
Qed.

(** A step that leaves the calls, the flag, the write lock, the goroutines'
    bodies and contexts and the Shutdown events alone keeps the invariant,
    provided it keeps the clause on listening. *)
Lemma Inv_frame v w w' :
  Inv v w →
  calls w' = calls w → started w' = started w →
  writer (mux w') = writer (mux w) →
  body <$> goroutines w' = body <$> goroutines w →
  gctx <$> goroutines w' = gctx <$> goroutines w →
  filter (λ e, is_shutdown_event e = true) (events w') =
    filter (λ e, is_shutdown_event e = true) (events w) →
  inShutdown (httpServer w') = inShutdown (httpServer w) →
  done w ⊆ done w' →
  (events w' = events w ∨ goroutines w ≠ []) →
  (filter (λ e, is_listen_event e = true) (events w') = [] ∨
   (length (filter (λ e, is_listen_event e = true) (events w')) = 1%nat ∧
    ∃ t g, goroutines w' !! t = Some g ∧ body g = GoListenAndServe ∧ gpc g ≠ Running)) →
  Inv v w'.
Proof.
  intros [Hcs Hres Hrej Huniq Hhist Hquiet _] Hc Hs Hw Hb Hg Hf Hi Hd He Hl.
  split; rewrite ?Hc, ?Hs, ?Hw; try done.
  - intros i c Hlk Hacc. destruct (Hhist i c Hlk Hacc) as [H1 H2 H3 H4 H5 H6].
    split; rewrite ?Hb, ?Hg, ?Hf, ?Hi, ?Hs; try done.
    intros Hp. specialize (H5 Hp). set_solver.
  - destruct Hquiet as [(Hq1 & Hq2 & Hq3 & Hq4) | Hq]; [left | by right].
    rewrite Hi. repeat split; try done.
    + apply (f_equal length) in Hb. rewrite !length_fmap, Hq2 in Hb.
      by destruct (goroutines w').
    + destruct He as [-> | ?]; done.
Qed.

Lemma goroutine_unique v w t t' g g' :
  Inv v w →
  goroutines w !! t = Some g → goroutines w !! t' = Some g' →
  body g = body g' → t = t'.
Proof.
  intros HI Ht Ht' Hb.
  destruct (inv_quiet v w HI) as [(_ & Hq & _) | (i & c & Hc & Hacc)].
  { by rewrite Hq in Ht. }
  pose proof (hist_bodies v c w (inv_history v w HI i c Hc Hacc)) as Hbodies.
  assert (Hl : ∀ k x, goroutines w !! k = Some x → go_stmts v !! k = Some (body x)).
  { intros k x Hk.
    assert (Hk' : (body <$> goroutines w) !! k = Some (body x))
      by (by rewrite list_lookup_fmap, Hk).
    rewrite Hbodies in Hk'. by apply lookup_take_Some in Hk' as [? _]. }
  apply Hl in Ht, Ht'. rewrite Hb in Ht.
  eapply NoDup_lookup; eauto using go_stmts_NoDup.
Qed.

Lemma filter_snoc_shutdown (evs : list Event) (e : Event) :
  filter (λ e, is_shutdown_event e = true) (evs ++ [e]) =
  filter (λ e, is_shutdown_event e = true) evs ++
    (if is_shutdown_event e then [e] else []).
Proof.
  rewrite filter_app. f_equal. destruct e; reflexivity.
Qed.

Lemma filter_snoc_listen (evs : list Event) (e : Event) :
  filter (λ e, is_listen_event e = true) (evs ++ [e]) =
  filter (λ e, is_listen_event e = true) evs ++
    (if is_listen_event e then [e] else []).
Proof.
  rewrite filter_app. f_equal. destruct e; reflexivity.
Qed.

Lemma log_unless_closed_events err w :
  events (log_unless_closed err w) = events w ∨
  events (log_unless_closed err w) = events w ++ [EvLog (log_line GoListenAndServe err)].
Proof. unfold log_unless_closed. case_decide; [by left | by right]. Qed.

Lemma log_unless_closed_frame err w :
  started (log_unless_closed err w) = started w ∧
  mux (log_unless_closed err w) = mux w ∧
  httpServer (log_unless_closed err w) = httpServer w ∧
  done (log_unless_closed err w) = done w ∧
  calls (log_unless_closed err w) = calls w ∧
  goroutines (log_unless_closed err w) = goroutines w.
Proof. unfold log_unless_closed. case_decide; done. Qed.

Lemma log_unless_closed_filters err w :
  filter (λ e, is_shutdown_event e = true) (events (log_unless_closed err w)) =
    filter (λ e, is_shutdown_event e = true) (events w) ∧
  filter (λ e, is_listen_event e = true) (events (log_unless_closed err w)) =
    filter (λ e, is_listen_event e = true) (events w).
Proof.
  destruct (log_unless_closed_events err w) as [-> | ->]; [done |].
  rewrite filter_snoc_shutdown, filter_snoc_listen. simpl. by rewrite !app_nil_r.
Qed.

(** The clause on listening survives an update of a goroutine that is not
    the one that listened, or that leaves it out of [Running]. *)
Lemma listen_clause_insert v w t g pc evs :
  Inv v w →
  goroutines w !! t = Some g →
  (body g = GoListenAndServe → pc ≠ Running) →
  filter (λ e, is_listen_event e = true) evs =
    filter (λ e, is_listen_event e = true) (events w) →
  filter (λ e, is_listen_event e = true) evs = [] ∨
  (length (filter (λ e, is_listen_event e = true) evs) = 1%nat ∧
   ∃ t' g', <[t := {| body := body g; gctx := gctx g; gpc := pc |}]> (goroutines w) !! t'
              = Some g' ∧ body g' = GoListenAndServe ∧ gpc g' ≠ Running).
Proof.
  intros HI Ht Hpc ->.
  destruct (inv_listen v w HI) as [? | (Hlen & t' & g' & Ht' & Hb & Hr)]; [by left | right].
  split; [done |]. destruct (decide (t = t')) as [<- | Hne].
  - simplify_eq. eexists t, _. split; [| split].
    + apply list_lookup_insert_eq. by eapply lookup_lt_Some.
    + done.
    + simpl. auto.
  - exists t', g'. by rewrite list_lookup_insert_ne.
Qed.

Lemma Inv_monitor_returns v w t r w' :
  Inv v w → monitor_returns t r w = Some w' → Inv v w'.
Proof.
  intros HI Hstep. unfold monitor_returns in Hstep.
  destruct (goroutines w !! t) as [g |] eqn:Ht; simpl in Hstep; [| done].
  destruct (body g) eqn:Hb; [| done]. destruct (gpc g) eqn:Hpc; try done.
  assert (Hne : goroutines w ≠ []) by (intros E; by rewrite E in Ht).
  rewrite <- Hb in Hstep.
  destruct r as [err |]; simplify_eq; (eapply Inv_frame; [exact HI | simpl ..]);
    rewrite ?fmap_set_body, ?fmap_set_gctx, ?filter_snoc_shutdown, ?app_nil_r;
    try done; auto;
    (eapply listen_clause_insert; [exact HI | exact Ht | congruence |]);
    rewrite ?filter_snoc_listen, ?app_nil_r; done.
Qed.

(** While the goroutine of [ListenAndServe] has not moved, nothing has tried
    to bind. *)
Lemma no_listen_before v w t g :
  Inv v w →
  goroutines w !! t = Some g → body g = GoListenAndServe → gpc g = Running →
  filter (λ e, is_listen_event e = true) (events w) = [].
Proof.
  intros HI Ht Hb Hpc.
  destruct (inv_listen v w HI) as [? | (_ & t' & g' & Ht' & Hb' & Hr)]; [done |].
  assert (t = t') by (eapply goroutine_unique; eauto; congruence).
  congruence.
Qed.

Lemma Inv_listen v w t r w' :
  Inv v w → listen t r w = Some w' → Inv v w'.
Proof.
  intros HI Hstep. unfold listen in Hstep.
  destruct (goroutines w !! t) as [g |] eqn:Ht; simpl in Hstep; [| done].
  destruct (body g) eqn:Hb; [done |]. destruct (gpc g) eqn:Hpc; try done.
  assert (Hne : goroutines w ≠ []) by (intros E; by rewrite E in Ht).
  pose proof (no_listen_before v w t g HI Ht Hb Hpc) as Hnl.
  destruct (inShutdown (httpServer w)) eqn:Hsh.
  { simplify_eq. eapply Inv_frame; [exact HI | simpl ..];
      rewrite ?fmap_set_body, ?fmap_set_gctx; try done; auto.
    all: eapply listen_clause_insert; eauto. }
  set (w1 := emit (EvListen (Addr (httpServer w))) w) in *.
  assert (Hright : ∀ evs pc,
    pc ≠ Running →
    filter (λ e, is_listen_event e = true) evs =
      filter (λ e, is_listen_event e = true) (events w1) →
    filter (λ e, is_listen_event e = true) evs = [] ∨
    (length (filter (λ e, is_listen_event e = true) evs) = 1%nat ∧
     ∃ t' g', <[t := {| body := body g; gctx := gctx g; gpc := pc |}]> (goroutines w) !! t'
                = Some g' ∧ body g' = GoListenAndServe ∧ gpc g' ≠ Running)).
  { intros evs pc Hpc' ->. right. subst w1. simpl.
    rewrite filter_snoc_listen, Hnl. split; [done |].
    eexists t, _. split; [apply list_lookup_insert_eq; by eapply lookup_lt_Some |].
    by split. }
  destruct r as [err |]; simplify_eq.
  - destruct (log_unless_closed_frame err w1) as (Hs & Hm & Hh & Hd & Hc & Hg).
    destruct (log_unless_closed_filters err w1) as (Hf1 & Hf2).
    eapply Inv_frame; [exact HI | simpl ..];
      rewrite ?Hs, ?Hm, ?Hh, ?Hd, ?Hc, ?Hg, ?Hf1;
      rewrite ?fmap_set_body, ?fmap_set_gctx; subst w1; simpl;
      rewrite ?filter_snoc_shutdown, ?app_nil_r; try done; auto.
    all: apply Hright; [done |]; by rewrite Hf2.
  - eapply Inv_frame; [exact HI | simpl ..];
      rewrite ?fmap_set_body, ?fmap_set_gctx, ?filter_snoc_shutdown, ?app_nil_r;
      try done; auto.
    all: by apply Hright.
Qed.

Lemma Inv_serve_returns v w t err w' :
  Inv v w → serve_returns t err w = Some w' → Inv v w'.
Proof.
  intros HI Hstep. unfold serve_returns in Hstep.
  destruct (goroutines w !! t) as [g |] eqn:Ht; simpl in Hstep; [| done].
  destruct (body g) eqn:Hb; [done |]. destruct (gpc g) eqn:Hpc; try done.
  assert (Hne : goroutines w ≠ []) by (intros E; by rewrite E in Ht).
  case_decide; [done |]. simplify_eq.
  set (w1 := with_http (set_listening false (httpServer w)) w) in *.
  destruct (log_unless_closed_frame err w1) as (Hs & Hm & Hh & Hd & Hc & Hg).
  destruct (log_unless_closed_filters err w1) as (Hf1 & Hf2).
  eapply Inv_frame; [exact HI | simpl ..];
    rewrite ?Hs, ?Hm, ?Hh, ?Hd, ?Hc, ?Hg, ?Hf1;
    rewrite ?fmap_set_body, ?fmap_set_gctx; subst w1; simpl; try done; auto.
  all: eapply listen_clause_insert; eauto.
Qed.

Lemma Inv_Cancel v w ctx : Inv v w → Inv v (with_done ({[ctx]} ∪ done w) w).
Proof.
  intros HI. eapply Inv_frame; [exact HI | simpl ..]; try done; auto.
  - set_solver.
  - apply (inv_listen v w HI).
Qed.

Lemma Inv_readers v w n : Inv v w → Inv v (with_mux (set_readers n (mux w)) w).
Proof.
  intros HI. eapply Inv_frame; [exact HI | simpl ..]; try done; auto.
  apply (inv_listen v w HI).
Qed.

Lemma Inv_CallRun v w ctx :
  Inv v w → Inv v (with_calls (calls w ++ [{| rctx := ctx; rpc := AtLock |}]) w).
Proof.
  intros [Hcs Hres Hrej Huniq Hhist Hquiet Hlisten].
  split; simpl; try done.
  - intros i c [[_ Hi] | [_ <-]]%lookup_snoc_Some; [eauto | done].
  - intros i c [[_ Hi] | [_ <-]]%lookup_snoc_Some; [eauto | done].
  - intros i c [[_ Hi] | [_ <-]]%lookup_snoc_Some; [eauto | done].
  - intros i j ci cj [[_ Hi] | [_ <-]]%lookup_snoc_Some
      [[_ Hj] | [_ <-]]%lookup_snoc_Some; try done. eauto.
  - intros i c [[_ Hi] | [_ <-]]%lookup_snoc_Some Hacc; [| done].
    destruct (Hhist i c Hi Hacc). by split.
  - destruct Hquiet as [? | (i & c & Hi & Hacc)]; [by left | right].
    exists i, c. split; [| done]. by apply lookup_app_l_Some.
Qed.

(** The [i]-th call of [Run] moves to [pc']. *)
Lemma Inv_update v w w' i c pc' :
  Inv v w →
  calls w !! i = Some c →
  calls w' = <[i := {| rctx := rctx c; rpc := pc' |}]> (calls w) →
  (in_cs pc' = true → writer (mux w') = Some i) →
  (∀ j, j ≠ i → writer (mux w) = Some j → writer (mux w') = Some j) →
  run_result pc' →
  (started w = true → started w' = true) →
  (rejected pc' = true → started w' = true) →
  (accepted pc' = true →
   accepted (rpc c) = true ∨ ∀ j cj, calls w !! j = Some cj → accepted (rpc cj) = false) →
  (accepted pc' = true → history v {| rctx := rctx c; rpc := pc' |} w') →
  (accepted pc' = false → ∀ cj, history v cj w → history v cj w') →
  (accepted pc' = true ∨
   (accepted (rpc c) = false ∧ started w' = started w ∧ goroutines w' = goroutines w ∧
    events w' = events w ∧ inShutdown (httpServer w') = inShutdown (httpServer w))) →
  (filter (λ e, is_listen_event e = true) (events w') = [] ∨
   (length (filter (λ e, is_listen_event e = true) (events w')) = 1%nat ∧
    ∃ t g, goroutines w' !! t = Some g ∧ body g = GoListenAndServe ∧ gpc g ≠ Running)) →
  Inv v w'.
Proof.
  intros [Hcs Hres Hrej Huniq Hhist Hquiet _] Hc Hcalls H1 H2 H3 Hs1 Hs2 H4 H5 H6 H7 H8.
  pose proof (lookup_lt_Some _ _ _ Hc) as Hlt.
  assert (Huniq' : ∀ j cj, calls w' !! j = Some cj → accepted (rpc cj) = true →
                           accepted pc' = true → j = i).
  { intros j cj Hj Hacc Hacc'. rewrite Hcalls in Hj.
    apply list_lookup_insert_Some in Hj as [(-> & _) | (Hne & Hj)]; [done |].
    destruct (H4 Hacc') as [Hold | Hnone].
    - symmetry. by eapply Huniq.
    - rewrite (Hnone j cj Hj) in Hacc. done. }
  split; try done.
  - intros j cj Hj Hin. rewrite Hcalls in Hj.
    apply list_lookup_insert_Some in Hj as [(-> & <- & _) | (Hne & Hj)]; simpl in *; eauto.
  - intros j cj Hj. rewrite Hcalls in Hj.
    apply list_lookup_insert_Some in Hj as [(-> & <- & _) | (Hne & Hj)]; simpl in *; eauto.
  - intros j cj Hj Hr. rewrite Hcalls in Hj.
    apply list_lookup_insert_Some in Hj as [(-> & <- & _) | (Hne & Hj)]; simpl in *; eauto.
  - intros j k cj ck Hj Hk Haj Hak.
    destruct (accepted pc') eqn:Hacc.
    + rewrite (Huniq' j cj), (Huniq' k ck); done.
    + rewrite Hcalls in Hj, Hk.
      apply list_lookup_insert_Some in Hj as [(-> & <- & _) | (Hnj & Hj)]; simpl in *;
        [congruence |].
      apply list_lookup_insert_Some in Hk as [(-> & <- & _) | (Hnk & Hk)]; simpl in *;
        [congruence |].
      eauto.
  - intros j cj Hj Hacc.
    destruct (accepted pc') eqn:Hacc'.
    + assert (j = i) as -> by eauto.
      rewrite Hcalls, list_lookup_insert_eq in Hj by done. simplify_eq. auto.
    + rewrite Hcalls in Hj.
      apply list_lookup_insert_Some in Hj as [(-> & <- & _) | (Hne & Hj)]; simpl in *;
        [congruence |]. eauto.
  - destruct H7 as [Hacc | (Hacc & Hs & Hg & He & Hi)].
    + right. exists i, {| rctx := rctx c; rpc := pc' |}.
      rewrite Hcalls, list_lookup_insert_eq by done. done.
    + rewrite Hs, Hg, He, Hi.
      destruct Hquiet as [? | (j & cj & Hj & Haj)]; [by left | right].
      exists j, cj. split; [| done]. rewrite Hcalls, list_lookup_insert_ne; [done |].
      intros ->. congruence.
Qed.

(** A call that holds the lock and sees [started] false is alone: no call has
    been accepted yet. *)
Lemma no_winner v w i c :
  Inv v w → calls w !! i = Some c → rpc c = AtCheck → started w = false →
  ∀ j cj, calls w !! j = Some cj → accepted (rpc cj) = false.
Proof.
  intros HI Hc Hpc Hs j cj Hj.
  destruct (accepted (rpc cj)) eqn:Hacc; [exfalso | done].
  pose proof (hist_started v cj w (inv_history v w HI j cj Hj Hacc)) as Hst.
  destruct (decide (rpc cj = AtSetStarted)) as [Heq | Hne].
  - assert (writer (mux w) = Some j) by (eapply inv_cs; eauto; by rewrite Heq).
    assert (writer (mux w) = Some i) by (eapply inv_cs; eauto; by rewrite Hpc).
    assert (i = j) by congruence. subst. congruence.
  - specialize (Hst Hne). congruence.
Qed.

Lemma listen_clause_spawn v w i c k g :
  Inv v w → calls w !! i = Some c → rpc c = AtGo k → go_stmts v !! k = Some g →
  filter (λ e, is_listen_event e = true) (events w) = [] ∨
  (length (filter (λ e, is_listen_event e = true) (events w)) = 1%nat ∧
   ∃ t g', (goroutines w ++ [{| body := g; gctx := rctx c; gpc := Running |}]) !! t = Some g' ∧
           body g' = GoListenAndServe ∧ gpc g' ≠ Running).
Proof.
  intros HI Hc Hpc Hk.
  destruct (inv_listen v w HI) as [? | (Hlen & t & g' & Ht & Hb & Hr)]; [by left | right].
  split; [done |]. exists t, g'. split; [| done]. by apply lookup_app_l_Some.
Qed.

Lemma Inv_Run v w i w' : Inv v w → Run v i w = Some w' → Inv v w'.
Proof.
  intros HI Hstep. unfold Run, Run_from in Hstep.
  destruct (calls w !! i) as [c |] eqn:Hc; simpl in Hstep; [| done].
  destruct (rpc c) eqn:Hpc; repeat case_match; simplify_eq.
  all: pose proof (inv_cs v w HI i c Hc) as Hcs; rewrite Hpc in Hcs; simpl in Hcs.
  all: pose proof (λ H, inv_history v w HI i c Hc H) as Hh; rewrite Hpc in Hh; simpl in Hh.
  all: pose proof (inv_rejected v w HI i c Hc) as Hrj; rewrite Hpc in Hrj; simpl in Hrj.
  all: eapply (Inv_update v w _ i c); [exact HI | exact Hc | reflexivity | simpl ..].
  all: rewrite ?Hpc; simpl.
  all: try done.
  all: try (by apply (inv_listen v w HI)).
  all: try (by intros _ cj []; split).
  all: try (by intros j Hne Hw; naive_solver).
  all: try (by auto).
  all: try (by right).
  all: try (by eapply listen_clause_spawn).
  all: try (by rewrite filter_snoc_listen, app_nil_r; apply (inv_listen v w HI)).
  - (* the check passes: no call has been accepted before *)
    intros _. right. eapply (no_winner v w i c); eauto.
  - intros _.
    destruct (inv_quiet v w HI) as [(Hq1 & Hq2 & Hq3 & Hq4) | (j & cj & Hj & Hacc)].
    + split; simpl; rewrite ?Hq2, ?Hq3; done.
    + assert (Hn : accepted (rpc cj) = false) by (eapply (no_winner v w i c); eauto).
      congruence.
  - intros _. destruct (Hh eq_refl) as [B C S I D T]. rewrite Hpc in *. simpl in *. split; simpl; done.
  - intros _. destruct (Hh eq_refl) as [B C S I D T]. rewrite Hpc in *. simpl in *. split; simpl; auto.
  - (* a go statement *)
    intros _. destruct (Hh eq_refl) as [B C S I D T]. rewrite Hpc in *. simpl in *. split; simpl; auto.
    + rewrite fmap_app, B. simpl. symmetry. by apply take_S_r.
    + rewrite fmap_app. apply Forall_app. split; [done |]. by repeat constructor.
  - (* past the last go statement *)
    intros _. destruct (Hh eq_refl) as [B C S I D T]. rewrite Hpc in *. simpl in *. split; simpl; auto.
    rewrite B. rewrite !take_ge; [done | lia |]. by apply lookup_ge_None.
  - intros _. destruct (Hh eq_refl) as [B C S I D T]. rewrite Hpc in *. simpl in *. split; simpl; auto.
  - (* Shutdown is called *)
    intros _. destruct (Hh eq_refl) as [B C S I D T]. rewrite Hpc in *. simpl in *. split; simpl; auto.
    + rewrite filter_snoc_shutdown, S. done.
Qed.

Lemma Inv_after_Shutdown v w i d w' :
  Inv v w → Run_after_Shutdown i d w = Some w' → Inv v w'.
Proof.
  intros HI Hstep. unfold Run_after_Shutdown in Hstep.
  destruct (calls w !! i) as [c |] eqn:Hc; simpl in Hstep; [| done].
  destruct (rpc c) eqn:Hpc; simplify_eq.
  pose proof (inv_result v w HI i c Hc) as Hr. rewrite Hpc in Hr. simpl in Hr. subst.
  pose proof (inv_history v w HI i c Hc) as Hh. rewrite Hpc in Hh.
  destruct (Hh eq_refl) as [B C S I D T]. rewrite Hpc in *. simpl in *.
  destruct (http_Shutdown gracePeriod d) as [err |] eqn:Hd;
    (eapply (Inv_update v w _ i c); [exact HI | exact Hc | reflexivity | simpl ..];
     rewrite ?Hpc; simpl; try done; auto).
  - right. by exists (Some err).
  - intros _. split; simpl; auto. by rewrite filter_snoc_shutdown, S.
  - rewrite filter_snoc_listen, app_nil_r. apply (inv_listen v w HI).
  - right. by exists None.
  - intros _. split; simpl; auto. by rewrite filter_snoc_shutdown, S.
  - rewrite filter_snoc_listen, app_nil_r. apply (inv_listen v w HI).
Qed.

Lemma Inv_step v a w w' : Inv v w → step v a w = Some w' → Inv v w'.
Proof.
  intros HI Hstep. destruct a; simpl in Hstep.
  - simplify_eq. by apply Inv_CallRun.
  - by eapply Inv_Run.
  - by eapply Inv_after_Shutdown.
  - simplify_eq. by apply Inv_Cancel.
  - by eapply Inv_monitor_returns.
  - by eapply Inv_listen.
  - by eapply Inv_serve_returns.
  - case_decide; simplify_eq. by apply Inv_readers.
  - destruct (readers (mux w)); simplify_eq. by apply Inv_readers.
Qed.

Lemma Inv_fresh v addr h : Inv v (fresh addr h).
Proof. split; simpl; try done; auto. Qed.

Lemma Inv_reachable v w0 w : Inv v w0 → reachable v w0 w → Inv v w.
Proof. intros H0 Hr. induction Hr; eauto using Inv_step. Qed.

Lemma exec_app v tr1 tr2 w :
  exec v (tr1 ++ tr2) w = w' ← exec v tr1 w; exec v tr2 w'.
Proof.
  revert w. induction tr1 as [| a tr1 IH]; intros w; simpl; [done |].
  destruct (step v a w); simpl; auto.
Qed.

Lemma exec_reachable v tr w0 w w' :
  reachable v w0 w → exec v tr w = Some w' → reachable v w0 w'.
Proof.
  revert w. induction tr as [| a tr IH]; intros w Hr He; simpl in He.
  - by simplify_eq.
  - destruct (step v a w) as [w1 |] eqn:Hs; simpl in He; [| done].
    eapply IH; [| exact He]. by eapply reach_step.
Qed.

(** ** Running a call on its own *)

Lemma Run_at v i w c : calls w !! i = Some c → Run v i w = Run_from v i c w.
Proof. intros H. unfold Run. by rewrite H. Qed.

Lemma exec_RunStep v i c tr w w1 :
  calls w !! i = Some c → Run_from v i c w = Some w1 →
  exec v (RunStep i :: tr) w = exec v tr w1.
Proof. intros Hc Hr. simpl. unfold Run. rewrite Hc. simpl. by rewrite Hr. Qed.

Lemma exec_ShutdownReturns v i d c t tr w :
  calls w !! i = Some c → rpc c = InShutdown t →
  exec v (ShutdownReturns i d :: tr) w =
    exec v tr (set_pc i c (Returned (shutdown_result (http_Shutdown t d)))
                 (emit (EvShutdownReturns (http_Shutdown t d)) w)).
Proof.
  intros Hc Hpc. simpl. unfold Run_after_Shutdown. rewrite Hc. simpl. by rewrite Hpc.
Qed.

Ltac run_first Hpc :=
  erewrite exec_RunStep;
  [ | eassumption
    | unfold Run_from; rewrite Hpc; simpl; rewrite ?decide_True by done; reflexivity ].

Ltac run_step :=
  erewrite exec_RunStep;
  [ | simpl; first [eassumption
                   | apply list_lookup_insert_eq; rewrite ?length_insert; done]
    | unfold Run_from; simpl; rewrite ?decide_True by done; reflexivity ].

Lemma set_writer_back (m : RWMutex) o : writer m = None → set_writer None (set_writer o m) = m.
Proof. destruct m; simpl; by intros ->. Qed.

(** A call made while nothing is started and the lock is free sets the flag,
    runs every go statement and arrives at the wait. *)
Lemma solo_accept v w i c :
  calls w !! i = Some c → rpc c = AtLock →
  writer (mux w) = None → readers (mux w) = 0%nat → started w = false →
  ∃ w', exec v (replicate (5 + length (go_stmts v)) (RunStep i)) w = Some w' ∧
        calls w' = <[i := {| rctx := rctx c; rpc := AtWait |}]> (calls w) ∧
        goroutines w' = goroutines w ++
          ((λ g, {| body := g; gctx := rctx c; gpc := Running |}) <$> go_stmts v) ∧
        started w' = true ∧ mux w' = mux w ∧ events w' = events w ∧
        httpServer w' = httpServer w ∧ done w' = done w.
Proof.
  intros Hc Hpc Hw Hr Hs.
  pose proof (lookup_lt_Some _ _ _ Hc) as Hlt.
  destruct w as [s m h d cs gs es]; simpl in Hc, Hw, Hr, Hs, Hlt. subst s.
  destruct v; cbn [replicate Nat.add length go_stmts].
  all: run_first Hpc.
  all: repeat run_step.
  all: eexists; split; [reflexivity |]; simpl.
  all: rewrite ?list_insert_insert_eq, <- ?(assoc_L (++)), set_writer_back by done.
  all: done.
Qed.

(** A call made while the flag is set and the lock is free returns the
    error, and the world is as before but for the record of the call. *)
Lemma solo_reject v w i c :
  calls w !! i = Some c → rpc c = AtLock →
  writer (mux w) = None → readers (mux w) = 0%nat → started w = true →
  exec v [RunStep i; RunStep i; RunStep i] w =
    Some (with_calls (<[i := {| rctx := rctx c; rpc := Returned (Some ErrAlreadyStarted) |}]>
                        (calls w)) w).
Proof.
  intros Hc Hpc Hw Hr Hs.
  pose proof (lookup_lt_Some _ _ _ Hc) as Hlt.
  destruct w as [s m h d cs gs es]; simpl in Hc, Hw, Hr, Hs, Hlt. subst s.
  run_first Hpc. do 2 run_step.
  unfold set_pc, with_calls, with_mux; simpl.
  by rewrite !list_insert_insert_eq, set_writer_back.
Qed.

(** After the cancellation the call shuts the listener down and returns. *)
Lemma solo_shutdown v w i c d :
  calls w !! i = Some c → rpc c = AtWait → rctx c ∈ done w →
  exec v [RunStep i; RunStep i; ShutdownReturns i d] w =
    Some (set_pc i c (Returned (shutdown_result (http_Shutdown gracePeriod d)))
            (emit (EvShutdownReturns (http_Shutdown gracePeriod d))
               (emit (EvShutdown gracePeriod)
                  (with_http (begin_shutdown (httpServer w)) w)))).
Proof.
  intros Hc Hpc Hd.
  pose proof (lookup_lt_Some _ _ _ Hc) as Hlt.
  destruct w as [s m h dn cs gs es]; simpl in Hc, Hd, Hlt.
  run_first Hpc. run_step.
  erewrite exec_ShutdownReturns;
    [ | simpl; apply list_lookup_insert_eq; rewrite ?length_insert; done | reflexivity ].
  unfold set_pc, with_calls, with_http, emit; simpl.
  by rewrite !list_insert_insert_eq.
Qed.

(** ** The flag only goes up, and a call that was not accepted never is *)

Lemma log_unless_closed_started err w :
  started (log_unless_closed err w) = started w.
Proof. apply log_unless_closed_frame. Qed.

Lemma log_unless_closed_calls err w :
  calls (log_unless_closed err w) = calls w.
Proof. apply log_unless_closed_frame. Qed.

Lemma step_started v a w w' :
  step v a w = Some w' → started w = true → started w' = true.
Proof.
  intros Hstep Hs.
  destruct a; simpl in Hstep;
    unfold Run, Run_from, Run_after_Shutdown, monitor_returns, listen, serve_returns in Hstep;
    repeat (progress (simplify_option_eq; try case_match)); simpl;
    rewrite ?log_unless_closed_started; simpl; done.
Qed.

Lemma exec_started v tr w w' :
  exec v tr w = Some w' → started w = true → started w' = true.
Proof.
  revert w. induction tr as [| a tr IH]; intros w He Hs; simpl in He; [by simplify_eq |].
  destruct (step v a w) as [w1 |] eqn:Hstep; simpl in He; [| done].
  eauto using step_started.
Qed.

Lemma step_stays_rejected v a w w' i c :
  started w = true → calls w !! i = Some c → accepted (rpc c) = false →
  step v a w = Some w' →
  ∃ c', calls w' !! i = Some c' ∧ accepted (rpc c') = false ∧ rctx c' = rctx c.
Proof.
  intros Hs Hc Hacc Hstep.
  pose proof (lookup_lt_Some _ _ _ Hc) as Hlt.
  assert (Hother : ∀ j x, j ≠ i → <[j := x]> (calls w) !! i = Some c)
    by (intros; by rewrite list_lookup_insert_ne).
  destruct a as [ctx | j | j d | ctx | t r | t r | t err | |]; simpl in Hstep.
  - simplify_eq. exists c. split; [by apply lookup_app_l_Some | done].
  - unfold Run in Hstep.
    destruct (calls w !! j) as [cj |] eqn:Hj; simpl in Hstep; [| done].
    destruct (decide (j = i)) as [-> | Hne].
    + simplify_eq. unfold Run_from in Hstep. rewrite Hs in Hstep.
      destruct (rpc c) eqn:Hpc; try done; repeat case_match; simplify_eq; simpl;
        eexists; (split; [by apply list_lookup_insert_eq | done]).
    + unfold Run_from in Hstep.
      repeat case_match; simplify_eq; simpl; exists c; eauto.
  - unfold Run_after_Shutdown in Hstep.
    destruct (calls w !! j) as [cj |] eqn:Hj; simpl in Hstep; [| done].
    destruct (rpc cj) eqn:Hpc; simplify_eq.
    destruct (decide (j = i)) as [-> | Hne].
    + simplify_eq. by rewrite Hpc in Hacc.
    + simpl. exists c. eauto.
  - simplify_eq. by exists c.
  - unfold monitor_returns in Hstep.
    repeat (case_match; simplify_option_eq); by exists c.
  - unfold listen in Hstep.
    repeat (case_match; simplify_option_eq); simpl;
      rewrite ?log_unless_closed_calls; by exists c.
  - unfold serve_returns in Hstep.
    repeat (case_match; simplify_option_eq); simpl;
      rewrite ?log_unless_closed_calls; by exists c.
  - case_decide; simplify_eq. by exists c.
  - destruct (readers (mux w)); simplify_eq. by exists c.
Qed.

Lemma exec_stays_rejected v tr w w' i c :
  started w = true → calls w !! i = Some c → accepted (rpc c) = false →
  exec v tr w = Some w' →
  ∃ c', calls w' !! i = Some c' ∧ accepted (rpc c') = false ∧ rctx c' = rctx c.
Proof.
  revert w c. induction tr as [| a tr IH]; intros w c Hs Hc Hacc He; simpl in He.
  - simplify_eq. by exists c.
  - destruct (step v a w) as [w1 |] eqn:Hstep; simpl in He; [| done].
    destruct (step_stays_rejected v a w w1 i c Hs Hc Hacc Hstep) as (c1 & Hc1 & Hacc1 & Hctx).
    destruct (IH w1 c1 (step_started v a w w1 Hstep Hs) Hc1 Hacc1 He) as (c' & ? & ? & ?).
    exists c'. split_and?; [done | done | congruence].
Qed.

(** A step of a call that has not been accepted touches the lock and the
    call's own record, nothing else. *)
Lemma Run_not_accepted_frame v w i c w' :
  calls w !! i = Some c → accepted (rpc c) = false → Run v i w = Some w' →
  started w' = started w ∧ goroutines w' = goroutines w ∧ events w' = events w ∧
  httpServer w' = httpServer w ∧ done w' = done w ∧ readers (mux w') = readers (mux w).
Proof.
  intros Hc Hacc Hstep. rewrite (Run_at v i w c Hc) in Hstep.
  unfold Run_from in Hstep.
  destruct (rpc c); try done; repeat case_match; simplify_eq; done.
Qed.

(** Whoever returned without the already-started error was accepted, and
    then the flag is set. *)
Lemma accepted_started v w i c :
  Inv v w → calls w !! i = Some c → accepted (rpc c) = true → rpc c ≠ AtSetStarted →
  started w = true.
Proof. intros HI Hc Hacc Hne. by eapply hist_started; [eapply inv_history |]. Qed.

(** ** Construction *)

Lemma failure_text_distinct :
  names_package Metal.order Metal.failure_text ∧
  names_package Integration.order Integration.failure_text.
Proof.
  split; intros p q Hp Hq; destruct p, q; simpl; try done;
    exfalso; revert Hp Hq; unfold Metal.order, Integration.order; set_solver.
Qed.

Ltac short_list_index :=
  let k := fresh "k" in
  let c := fresh "c" in
  let Hk := fresh "Hk" in
  let Hlt := fresh "Hlt" in
  intros k c Hk Hlt;
  repeat (destruct k as [| k]; simpl in Hk, Hlt; simplify_eq; try lia; simpl;
          try match goal with H : _ = inr _ |- _ => rewrite H end; try done).

Ltac short_list_member :=
  let c := fresh "c" in
  let Hin := fresh "Hin" in
  intros c Hin;
  repeat (apply elem_of_cons in Hin as [-> | Hin]; simpl;
          [try match goal with H : _ = inr _ |- _ => rewrite H end; done |]);
  by apply elem_of_nil in Hin.

(** C3.  [New] builds the monitors in one fixed order with the GPIO
    controller first, stops at the first constructor that fails (or before
    any, on an empty device identifier) and returns that failure under a text
    that names the package; it returns a server exactly when it returns no
    error.  Both revisions. *)
Theorem New_fails_fast (hw : Platform) (cfg : Config) (handler : list (string * HandlerFunc)) :
  fails_fast hw cfg Metal.order Metal.failure_text (Metal.New hw cfg) ∧
  fails_fast hw cfg Integration.order Integration.failure_text
    (Integration.New handler hw cfg) ∧
  names_package Metal.order Metal.failure_text ∧
  names_package Integration.order Integration.failure_text.
Proof.
  split; [| split; [| apply failure_text_distinct]].
  - unfold fails_fast, Metal.New, Metal.build, go_pair, build_bind, construct,
      build_fail, build_ret.
    destruct (decide (DeviceID cfg = "")) as [He | Hne]; simpl.
    { split_and!; try done; try naive_solver. by apply prefix_nil. }
    destruct (gpio_New hw) as [e1 | g] eqn:H1; simpl.
    { split_and!; try done; try naive_solver.
      - by exists [PkgPower; PkgThermal; PkgSecure].
      - short_list_index.
      - intros e [= <-] _. exists CallGpioNew, e1. simpl. by rewrite H1. }
    destruct (power_New hw _) as [e2 | pm] eqn:H2; simpl.
    { split_and!; try done; try naive_solver.
      - by exists [PkgThermal; PkgSecure].
      - short_list_index.
      - intros e [= <-] _. eexists (CallPowerNew _), e2. simpl. by rewrite H2. }
    destruct (thermal_New hw _) as [e3 | tm] eqn:H3; simpl.
    { split_and!; try done; try naive_solver.
      - by exists [PkgSecure].
      - short_list_index.
      - intros e [= <-] _. eexists (CallThermalNew _), e3. simpl. by rewrite H3. }
    destruct (secure_New hw _) as [e4 | sm] eqn:H4; simpl.
    { split_and!; try done; try naive_solver.
      - short_list_index.
      - intros e [= <-] _. eexists (CallSecureNew _), e4. simpl. by rewrite H4. }
    split_and!; try done; try naive_solver.
    + short_list_index.
    + intros _. split; [done |]. short_list_member.
  - unfold fails_fast, Integration.New, Integration.build, go_pair, build_bind, construct,
      build_fail, build_ret.
    destruct (decide (DeviceID cfg = "")) as [He | Hne]; simpl.
    { split_and!; try done; try naive_solver. by apply prefix_nil. }
    destruct (gpio_New hw) as [e1 | g] eqn:H1; simpl.
    { split_and!; try done; try naive_solver.
      - by exists [PkgPower; PkgThermal; PkgState; PkgDiagnostics].
      - short_list_index.
      - intros e [= <-] _. exists CallGpioNew, e1. simpl. by rewrite H1. }
    destruct (power_New hw _) as [e2 | pm] eqn:H2; simpl.
    { split_and!; try done; try naive_solver.
      - by exists [PkgThermal; PkgState; PkgDiagnostics].
      - short_list_index.
      - intros e [= <-] _. eexists (CallPowerNew _), e2. simpl. by rewrite H2. }
    destruct (thermal_New hw _) as [e3 | tm] eqn:H3; simpl.
    { split_and!; try done; try naive_solver.
      - by exists [PkgState; PkgDiagnostics].
      - short_list_index.
      - intros e [= <-] _. eexists (CallThermalNew _), e3. simpl. by rewrite H3. }
    destruct (state_New hw _) as [e4 | sm] eqn:H4; simpl.
    { split_and!; try done; try naive_solver.
      - by exists [PkgDiagnostics].
      - short_list_index.
      - intros e [= <-] _. eexists (CallStateNew _), e4. simpl. by rewrite H4. }
    destruct (diagnostics_New hw _) as [e5 | dm] eqn:H5; simpl.
    { split_and!; try done; try naive_solver.
      - short_list_index.
      - intros e [= <-] _. eexists (CallDiagnosticsNew _), e5. simpl. by rewrite H5. }
    split_and!; try done; try naive_solver.
    + short_list_index.
    + intros _. split; [done |]. short_list_member.
Qed.

(** ** The lifecycle *)

Lemma reachable_Inv v addr h w : reachable v (fresh addr h) w → Inv v w.
Proof. apply Inv_reachable, Inv_fresh. Qed.

Lemma after_reachable v tr :
  is_Some (exec v tr sample_world) → reachable v sample_world (after v tr).
Proof.
  intros [w Hw]. unfold after. rewrite Hw. simpl.
  eapply exec_reachable; [apply reach_here | exact Hw].
Qed.

Lemma shutdown_events_of v w :
  Inv v w →
  filter (λ e, is_shutdown_event e = true) (events w) = [] ∨
  filter (λ e, is_shutdown_event e = true) (events w) = [EvShutdown gracePeriod] ∨
  ∃ x, filter (λ e, is_shutdown_event e = true) (events w) =
         [EvShutdown gracePeriod; EvShutdownReturns x].
Proof.
  intros HI.
  destruct (inv_quiet v w HI) as [(_ & _ & -> & _) | (i & c & Hc & Hacc)]; [by left |].
  pose proof (hist_shutdowns v c w (inv_history v w HI i c Hc Hacc)) as Hs.
  pose proof (inv_result v w HI i c Hc) as Hr.
  rewrite Hs. destruct (rpc c) as [| | | | | | | | t | [[|] |]]; simpl in *; eauto.
  subst. auto.
Qed.

Lemma filter_call_shutdown (evs : list Event) :
  filter (λ e, is_shutdown_call e = true) (filter (λ e, is_shutdown_event e = true) evs) =
  filter (λ e, is_shutdown_call e = true) evs.
Proof.
  induction evs as [| e evs IH]; [done |].
  destruct e; rewrite ?filter_cons; simpl; rewrite ?filter_cons; simpl; by rewrite ?IH.
Qed.

Lemma shutdown_calls_once v w :
  Inv v w →
  (length (filter (λ e, is_shutdown_call e = true) (events w)) ≤ 1)%nat ∧
  ∀ t, EvShutdown t ∈ events w → t = gracePeriod.
Proof.
  intros HI. split.
  - rewrite <- filter_call_shutdown.
    destruct (shutdown_events_of v w HI) as [-> | [-> | [x ->]]]; simpl; lia.
  - intros t Hin.
    assert (Hin' : EvShutdown t ∈ filter (λ e, is_shutdown_event e = true) (events w))
      by (by apply list_elem_of_filter).
    destruct (shutdown_events_of v w HI) as [Hf | [Hf | [x Hf]]]; rewrite Hf in Hin'.
    + by apply elem_of_nil in Hin'.
    + apply list_elem_of_singleton in Hin'. congruence.
    + apply elem_of_cons in Hin' as [? | Hin']; [congruence |].
      apply list_elem_of_singleton in Hin'. congruence.
Qed.

Lemma goroutines_prefix v w : Inv v w → (body <$> goroutines w) `prefix_of` go_stmts v.
Proof.
  intros HI.
  destruct (inv_quiet v w HI) as [(_ & -> & _) | (i & c & Hc & Hacc)]; [apply prefix_nil |].
  rewrite (hist_bodies v c w (inv_history v w HI i c Hc Hacc)). apply prefix_take.
Qed.

Lemma listen_once v w :
  Inv v w → (length (filter (λ e, is_listen_event e = true) (events w)) ≤ 1)%nat.
Proof. intros HI. destruct (inv_listen v w HI) as [-> | [-> _]]; simpl; lia. Qed.

(** What comes back from a call that was not accepted. *)
Lemma not_accepted_result v w i c r :
  Inv v w → calls w !! i = Some c → accepted (rpc c) = false → rpc c = Returned r →
  r = Some ErrAlreadyStarted.
Proof.
  intros HI Hc Hacc Hpc. pose proof (inv_result v w HI i c Hc) as Hr.
  rewrite Hpc in Hr, Hacc. simpl in Hr.
  destruct Hr as [-> | [[e |] ->]]; done.
Qed.

(** A call made once the flag is set is never accepted, whatever else
    happens meanwhile. *)
Lemma later_call_rejected v w ctx tr w' :
  started w = true → exec v (CallRun ctx :: tr) w = Some w' →
  started w' = true ∧
  ∃ c, calls w' !! length (calls w) = Some c ∧ rctx c = ctx ∧ accepted (rpc c) = false.
Proof.
  intros Hs He. simpl in He.
  set (w0 := with_calls (calls w ++ [{| rctx := ctx; rpc := AtLock |}]) w) in *.
  assert (Hc0 : calls w0 !! length (calls w) = Some {| rctx := ctx; rpc := AtLock |})
    by (simpl; by rewrite list_lookup_middle).
  split; [by eapply (exec_started v tr w0) |].
  destruct (exec_stays_rejected v tr w0 w' _ _ Hs Hc0 eq_refl He) as (c & ? & ? & ?).
  by exists c.
Qed.



Lemma insert_last {A} (l : list A) (x y : A) : <[length l := y]> (l ++ [x]) = l ++ [y].
Proof. induction l as [| a l IH]; simpl; [done | by rewrite IH]. Qed.

(** C2.  On a server whose flag is set, a further call of [Run] returns the
    already-started error.  Run alone it leaves the world as it was but for
    the record of its own return: no goroutine, no event, the same flag,
    lock and listener.  Under any schedule it is never accepted, each of its
    steps touches only the lock and its own record, and the goroutines stay
    one set: a prefix of the go statements, with at most one bind and at most
    one call of Shutdown ever. *)
Theorem second_Run_is_rejected v addr h w ctx :
  reachable v (fresh addr h) w →
  started w = true →
  (writer (mux w) = None → readers (mux w) = 0%nat →
   exec v [CallRun ctx; RunStep (length (calls w)); RunStep (length (calls w));
           RunStep (length (calls w))] w =
     Some (with_calls
             (calls w ++ [{| rctx := ctx; rpc := Returned (Some ErrAlreadyStarted) |}]) w)) ∧
  (∀ tr w', exec v (CallRun ctx :: tr) w = Some w' →
     started w' = true ∧
     (∃ c, calls w' !! length (calls w) = Some c ∧ rctx c = ctx ∧
           accepted (rpc c) = false ∧
           ∀ r, rpc c = Returned r → r = Some ErrAlreadyStarted) ∧
     (body <$> goroutines w') `prefix_of` go_stmts v ∧
     (length (filter (λ e, is_listen_event e = true) (events w')) ≤ 1)%nat ∧
     (length (filter (λ e, is_shutdown_call e = true) (events w')) ≤ 1)%nat) ∧
  (∀ i w1 c1 w2,
     calls w1 !! i = Some c1 → accepted (rpc c1) = false → Run v i w1 = Some w2 →
     started w2 = started w1 ∧ goroutines w2 = goroutines w1 ∧ events w2 = events w1 ∧
     httpServer w2 = httpServer w1 ∧ done w2 = done w1 ∧
     readers (mux w2) = readers (mux w1)).
Proof.
  intros Hreach Hs. split_and!.
  - intros Hw Hr.
    set (w0 := with_calls (calls w ++ [{| rctx := ctx; rpc := AtLock |}]) w).
    change (exec v (CallRun ctx :: ?tr) w) with (exec v tr w0).
    rewrite (solo_reject v w0 (length (calls w)) {| rctx := ctx; rpc := AtLock |});
      try done.
    + subst w0. simpl. by rewrite insert_last.
    + simpl. by rewrite list_lookup_middle.
  - intros tr w' He.
    assert (HI' : Inv v w').
    { eapply reachable_Inv, exec_reachable; [exact Hreach | exact He]. }
    destruct (later_call_rejected v w ctx tr w' Hs He) as (Hs' & c & Hc & Hctx & Hacc).
    split_and!; [done | | by apply goroutines_prefix | by apply (listen_once v)
                | by apply (shutdown_calls_once v)].
    exists c. split_and!; try done.
    intros r Hr. by eapply (not_accepted_result v w').
  - intros i w1 c1 w2. apply Run_not_accepted_frame.
Qed.

(** An instance of C2: a second caller, under context 8, on the sample
    server at the wait. *)
Lemma second_Run_is_rejected_witness :
  reachable MetalServer (fresh ":8080" routes) (after MetalServer (sample_start MetalServer)) ∧
  started (after MetalServer (sample_start MetalServer)) = true ∧
  exec MetalServer [CallRun 8; RunStep 1; RunStep 1; RunStep 1]
    (after MetalServer (sample_start MetalServer)) =
  Some (with_calls
          [{| rctx := 7; rpc := AtWait |};
           {| rctx := 8; rpc := Returned (Some ErrAlreadyStarted) |}]
          (after MetalServer (sample_start MetalServer))).
Proof.
  assert (Hr : reachable MetalServer (fresh ":8080" routes)
                 (after MetalServer (sample_start MetalServer)))
    by (apply after_reachable; vm_compute; eauto).
  split; [exact Hr |]. split; [reflexivity |].
  destruct (second_Run_is_rejected MetalServer ":8080" routes _ 8 Hr eq_refl) as (Hsolo & _).
  apply (Hsolo eq_refl eq_refl).
Defined.

(** C9.  No step resets [started].  So once a call of [Run] has been
    accepted and has set the flag (in particular once it has returned, nil
    included) the flag is set for good, and every later call of [Run] is
    rejected with the already-started error: a stopped server does not run
    again. *)
Theorem started_is_never_reset v addr h w :
  reachable v (fresh addr h) w →
  (∀ a w', step v a w = Some w' → started w = true → started w' = true) ∧
  (∀ tr w', exec v tr w = Some w' → started w = true → started w' = true) ∧
  (∀ j cj, calls w !! j = Some cj → accepted (rpc cj) = true → rpc cj ≠ AtSetStarted →
     started w = true ∧
     ∀ ctx tr w', exec v (CallRun ctx :: tr) w = Some w' →
       started w' = true ∧
       ∃ c, calls w' !! length (calls w) = Some c ∧ rctx c = ctx ∧
            accepted (rpc c) = false ∧
            ∀ r, rpc c = Returned r → r = Some ErrAlreadyStarted) ∧
  (∀ j cj ctx, calls w !! j = Some cj → rpc cj = Returned None →
     writer (mux w) = None → readers (mux w) = 0%nat →
     ∃ w', exec v [CallRun ctx; RunStep (length (calls w)); RunStep (length (calls w));
                   RunStep (length (calls w))] w = Some w' ∧
           calls w' !! length (calls w) =
             Some {| rctx := ctx; rpc := Returned (Some ErrAlreadyStarted) |}).
Proof.
  intros Hreach. pose proof (reachable_Inv v addr h w Hreach) as HI. split_and!.
  - intros a w'. apply step_started.
  - intros tr w'. apply exec_started.
  - intros j cj Hj Hacc Hne.
    assert (Hs : started w = true) by by eapply accepted_started.
    split; [done |]. intros ctx tr w' He.
    assert (HI' : Inv v w').
    { eapply reachable_Inv, exec_reachable; [exact Hreach | exact He]. }
    destruct (later_call_rejected v w ctx tr w' Hs He) as (Hs' & c & Hc & Hctx & Hacc').
    split; [done |]. exists c. split_and!; try done.
    intros r Hr. by eapply (not_accepted_result v w').
  - intros j cj ctx Hj Hpc Hw Hr.
    assert (Hs : started w = true).
    { eapply accepted_started; eauto; by rewrite Hpc. }
    set (w0 := with_calls (calls w ++ [{| rctx := ctx; rpc := AtLock |}]) w).
    eexists. split.
    + change (exec v (CallRun ctx :: ?tr) w) with (exec v tr w0).
      apply (solo_reject v w0 (length (calls w)) {| rctx := ctx; rpc := AtLock |});
        try done.
      simpl. by rewrite list_lookup_middle.
    + simpl. apply list_lookup_insert_eq. rewrite length_app. simpl. lia.
Qed.

(** An instance of C9: the sample server has stopped cleanly; a caller under
    context 9 is turned away. *)
Lemma started_is_never_reset_witness :
  reachable MetalServer (fresh ":8080" routes) (after MetalServer (sample_stopped MetalServer)) ∧
  calls (after MetalServer (sample_stopped MetalServer)) !! 0%nat =
    Some {| rctx := 7; rpc := Returned None |} ∧
  ∃ w', exec MetalServer [CallRun 9; RunStep 1; RunStep 1; RunStep 1]
          (after MetalServer (sample_stopped MetalServer)) = Some w' ∧
        calls w' !! 1%nat = Some {| rctx := 9; rpc := Returned (Some ErrAlreadyStarted) |}.
Proof.
  assert (Hr : reachable MetalServer (fresh ":8080" routes)
                 (after MetalServer (sample_stopped MetalServer)))
    by (apply after_reachable; vm_compute; eauto).
  split; [exact Hr |]. split; [reflexivity |].
  destruct (started_is_never_reset MetalServer ":8080" routes _ Hr) as (_ & _ & _ & Hlater).
  apply (Hlater 0%nat {| rctx := 7; rpc := Returned None |} 9%nat); reflexivity.
Defined.

(** C4.  The context given to [Shutdown] expires after 30 seconds
    (30 000 000 000 ns), and [Shutdown] is called at most once in the life of
    the server.  When it does not finish within that time its error,
    [context.DeadlineExceeded], comes back from [Run] wrapped; the call of
    [Run] has then returned and does nothing more. *)
Theorem Shutdown_is_one_bounded_attempt v addr h w :
  reachable v (fresh addr h) w →
  gracePeriod = 30 * 1000000000 ∧
  (∀ t, EvShutdown t ∈ events w → t = gracePeriod) ∧
  (length (filter (λ e, is_shutdown_call e = true) (events w)) ≤ 1)%nat ∧
  (∀ i c t, calls w !! i = Some c → rpc c = InShutdown t →
     t = gracePeriod ∧
     ∀ d, ∃ w',
       step v (ShutdownReturns i d) w = Some w' ∧
       calls w' !! i =
         Some {| rctx := rctx c;
                 rpc := Returned (shutdown_result (http_Shutdown gracePeriod d)) |} ∧
       events w' = events w ++ [EvShutdownReturns (http_Shutdown gracePeriod d)] ∧
       (exceeds d gracePeriod →
        shutdown_result (http_Shutdown gracePeriod d) =
          Some (wrapError "error shutting down HTTP server" context_DeadlineExceeded)) ∧
       Run v i w' = None ∧
       (∀ d', Run_after_Shutdown i d' w' = None) ∧
       (length (filter (λ e, is_shutdown_call e = true) (events w')) ≤ 1)%nat).
Proof.
  intros Hreach. pose proof (reachable_Inv v addr h w Hreach) as HI.
  destruct (shutdown_calls_once v w HI) as [Hone Hgrace].
  split_and!; try done.
  intros i c t Hc Hpc.
  pose proof (inv_result v w HI i c Hc) as Ht. rewrite Hpc in Ht. simpl in Ht. subst t.
  split; [done |]. intros d.
  pose proof (lookup_lt_Some _ _ _ Hc) as Hlt.
  set (w' := set_pc i c (Returned (shutdown_result (http_Shutdown gracePeriod d)))
               (emit (EvShutdownReturns (http_Shutdown gracePeriod d)) w)).
  assert (Hstep : step v (ShutdownReturns i d) w = Some w').
  { simpl. unfold Run_after_Shutdown. rewrite Hc. simpl. by rewrite Hpc. }
  assert (Hc' : calls w' !! i =
                  Some {| rctx := rctx c;
                          rpc := Returned (shutdown_result (http_Shutdown gracePeriod d)) |})
    by (simpl; by apply list_lookup_insert_eq).
  exists w'. split_and!; try done.
  - intros Hex. destruct d as [t lnerr |]; simpl in *; [| done].
    by rewrite (proj2 (Z.leb_gt t gracePeriod) Hex).
  - by rewrite (Run_at v i w' _ Hc').
  - intros d'. unfold Run_after_Shutdown. by rewrite Hc'.
  - apply (shutdown_calls_once v). eapply Inv_step; eauto.
Qed.

(** An instance of C4: the sample server inside [Shutdown], which never
    drains. *)
Lemma Shutdown_is_one_bounded_attempt_witness :
  reachable MetalServer (fresh ":8080" routes)
    (after MetalServer (sample_stopping MetalServer)) ∧
  ∃ w', step MetalServer (ShutdownReturns 0 NeverDrains)
          (after MetalServer (sample_stopping MetalServer)) = Some w' ∧
        calls w' !! 0%nat =
          Some {| rctx := 7;
                  rpc := Returned (Some (wrapError "error shutting down HTTP server"
                                           context_DeadlineExceeded)) |}.
Proof.
  assert (Hr : reachable MetalServer (fresh ":8080" routes)
                 (after MetalServer (sample_stopping MetalServer)))
    by (apply after_reachable; vm_compute; eauto).
  split; [exact Hr |].
  destruct (Shutdown_is_one_bounded_attempt MetalServer ":8080" routes _ Hr)
    as (_ & _ & _ & Hret).
  destruct (Hret 0%nat {| rctx := 7; rpc := InShutdown gracePeriod |} gracePeriod
              eq_refl eq_refl) as (_ & Hd).
  destruct (Hd NeverDrains) as (w' & Hstep & Hc & _).
  exists w'. split; [exact Hstep | exact Hc].
Defined.

Lemma step_same_but_events v a w1 w2 w1' :
  same_but_events w1 w2 → step v a w1 = Some w1' →
  ∃ w2', step v (without_monitor_errors a) w2 = Some w2' ∧ same_but_events w1' w2'.
Proof.
  intros (Hs & Hm & Hh & Hd & Hc & Hg) Hstep.
  destruct w1 as [s1 m1 h1 d1 c1 g1 e1], w2 as [s2 m2 h2 d2 c2 g2 e2].
  simpl in *. subst.
  destruct a as [ctx | i | i d | ctx | t r | t r | t err | |]; simpl in *.
  - simplify_eq. eexists. split; [done |]. by repeat split.
  - unfold Run in *. simpl in *.
    destruct (c2 !! i) as [c |]; simpl in *; [| done].
    unfold Run_from in *. simpl in *.
    destruct (rpc c); repeat case_match; simplify_eq;
      (eexists; split; [done |]; by repeat split).
  - unfold Run_after_Shutdown in *. simpl in *.
    destruct (c2 !! i) as [c |]; simpl in *; [| done].
    destruct (rpc c); simplify_eq. eexists. split; [done |]. by repeat split.
  - simplify_eq. eexists. split; [done |]. by repeat split.
  - unfold monitor_returns in *. simpl in *.
    destruct (g2 !! t) as [g |]; simpl in *; [| done].
    destruct (body g); [| done]. destruct (gpc g); try done.
    destruct r; simplify_eq; (eexists; split; [done |]; by repeat split).
  - unfold listen in *. simpl in *.
    destruct (g2 !! t) as [g |]; simpl in *; [| done].
    destruct (body g); [done |]. destruct (gpc g); try done.
    unfold log_unless_closed in *.
    destruct (inShutdown h2); [| destruct r];
      repeat case_decide; simplify_eq; (eexists; split; [done |]; by repeat split).
  - unfold serve_returns in *. simpl in *.
    destruct (g2 !! t) as [g |]; simpl in *; [| done].
    destruct (body g); [done |]. destruct (gpc g); try done.
    unfold log_unless_closed in *.
    repeat case_decide; simplify_eq; (eexists; split; [done |]; by repeat split).
  - case_decide; simplify_eq. eexists. split; [done |]. by repeat split.
  - destruct (readers m2); simplify_eq. eexists. split; [done |]. by repeat split.
Qed.

Lemma exec_same_but_events v tr w1 w2 w1' :
  same_but_events w1 w2 → exec v tr w1 = Some w1' →
  ∃ w2', exec v (without_monitor_errors <$> tr) w2 = Some w2' ∧ same_but_events w1' w2'.
Proof.
  revert w1 w2. induction tr as [| a tr IH]; intros w1 w2 Hsame He; simpl in *.
  - simplify_eq. by exists w2.
  - destruct (step v a w1) as [x1 |] eqn:Hstep; simpl in He; [| done].
    destruct (step_same_but_events v a w1 w2 x1 Hsame Hstep) as (x2 & Hstep2 & Hsame2).
    rewrite Hstep2. simpl. by eapply IH.
Qed.

(** C5.  When a monitor's loop returns an error, its goroutine logs the
    error under the monitor's text and ends; every other goroutine, the
    listener, the flag, the lock and every call of [Run] are as before.  And
    the calls of [Run], return values included, are the same under any
    schedule as under that schedule with every monitor returning nil: no
    monitor error reaches [Run]'s result. *)
Theorem monitor_error_stays_local v w t g m err :
  goroutines w !! t = Some g → body g = GoMonitor m → gpc g = Running →
  (∃ w', step v (MonitorReturns t (Some err)) w = Some w' ∧
         events w' = events w ++ [EvLog (log_line (GoMonitor m) err)] ∧
         goroutines w' =
           <[t := {| body := GoMonitor m; gctx := gctx g; gpc := Exited |}]> (goroutines w) ∧
         (∀ t', t' ≠ t → goroutines w' !! t' = goroutines w !! t') ∧
         calls w' = calls w ∧ httpServer w' = httpServer w ∧
         started w' = started w ∧ mux w' = mux w ∧ done w' = done w) ∧
  (∀ tr w1, exec v tr w = Some w1 →
     ∃ w2, exec v (without_monitor_errors <$> tr) w = Some w2 ∧ same_but_events w1 w2).
Proof.
  intros Ht Hb Hpc. split.
  - set (w' := set_gpc t g Exited (emit (EvLog (log_line (body g) err)) w)).
    assert (Hstep : step v (MonitorReturns t (Some err)) w = Some w').
    { simpl. unfold monitor_returns. rewrite Ht. simpl. by rewrite Hb, Hpc, <- Hb. }
    exists w'. split; [exact Hstep |]. simpl. rewrite Hb.
    split_and!; try done.
    intros t' Hne. by apply list_lookup_insert_ne.
  - intros tr w1 He. eapply exec_same_but_events; [| exact He]. by repeat split.
Qed.

(** An instance of C5: the thermal monitor of the sample server fails. *)
Lemma monitor_error_stays_local_witness :
  goroutines (after MetalServer (sample_start MetalServer)) !! 1%nat =
    Some {| body := GoMonitor Thermal; gctx := 7; gpc := Running |} ∧
  ∃ w', step MetalServer (MonitorReturns 1 (Some (errorString "sensor read failed")))
          (after MetalServer (sample_start MetalServer)) = Some w' ∧
        events w' = [EvLog "Thermal monitoring error: sensor read failed"] ∧
        calls w' = [{| rctx := 7; rpc := AtWait |}].
Proof.
  split; [reflexivity |].
  destruct (monitor_error_stays_local MetalServer
              (after MetalServer (sample_start MetalServer)) 1
              {| body := GoMonitor Thermal; gctx := 7; gpc := Running |} Thermal
              (errorString "sensor read failed") eq_refl eq_refl eq_refl)
    as ((w' & Hstep & Hev & _ & _ & Hcalls & _) & _).
  exists w'. split; [exact Hstep |]. split; [exact Hev | exact Hcalls].
Defined.

(** C10.  When [ListenAndServe] fails to bind, its goroutine logs the error
    and ends; the listener is not serving and the calls of [Run] are as
    before: a call at the wait stays blocked while its context is not
    cancelled, and once it is cancelled and [Shutdown] returns nil, [Run]
    returns nil. *)
Theorem listen_failure_is_only_logged v w t g err :
  goroutines w !! t = Some g → body g = GoListenAndServe → gpc g = Running →
  inShutdown (httpServer w) = false → err ≠ http_ErrServerClosed →
  ∃ w', step v (Listen t (Some err)) w = Some w' ∧
        events w' = events w ++
          [EvListen (Addr (httpServer w)); EvLog (log_line GoListenAndServe err)] ∧
        goroutines w' =
          <[t := {| body := GoListenAndServe; gctx := gctx g; gpc := Exited |}]>
            (goroutines w) ∧
        calls w' = calls w ∧ httpServer w' = httpServer w ∧
        started w' = started w ∧ mux w' = mux w ∧ done w' = done w ∧
        (∀ i c, calls w !! i = Some c → rpc c = AtWait → rctx c ∉ done w →
           Run v i w' = None) ∧
        (∀ i c d, calls w !! i = Some c → rpc c = AtWait →
           http_Shutdown gracePeriod d = None →
           ∃ w'', exec v [Cancel (rctx c); RunStep i; RunStep i; ShutdownReturns i d] w'
                    = Some w'' ∧
                  calls w'' !! i = Some {| rctx := rctx c; rpc := Returned None |} ∧
                  listening (httpServer w'') = false).
Proof.
  intros Ht Hb Hpc Hsh Herr.
  set (w' := set_gpc t g Exited
               (emit (EvLog (log_line GoListenAndServe err))
                  (emit (EvListen (Addr (httpServer w))) w))).
  assert (Hstep : step v (Listen t (Some err)) w = Some w').
  { simpl. unfold listen. rewrite Ht. simpl. rewrite Hb, Hpc, Hsh.
    unfold log_unless_closed. by rewrite decide_False. }
  assert (Hcalls : calls w' = calls w) by done.
  exists w'. split; [exact Hstep |].
  split_and!; try done.
  - simpl. by rewrite <- (assoc_L (++)).
  - simpl. by rewrite Hb.
  - intros i c Hc Hwait Hnd.
    rewrite (Run_at v i w' c Hc). unfold Run_from. rewrite Hwait.
    by rewrite decide_False.
  - intros i c d Hc Hwait Hnil.
    pose proof (lookup_lt_Some _ _ _ Hc) as Hlt.
    change (exec v (Cancel (rctx c) :: [RunStep i; RunStep i; ShutdownReturns i d]) w')
      with (exec v [RunStep i; RunStep i; ShutdownReturns i d]
              (with_done ({[rctx c]} ∪ done w') w')).
    rewrite (solo_shutdown v _ i c d); [| exact Hc | exact Hwait | simpl; set_solver].
    eexists. split; [reflexivity |]. rewrite Hnil. simpl.
    split; [by apply list_lookup_insert_eq | done].
Qed.

(** An instance of C10: port 8080 is taken when the sample server starts;
    the server is cancelled, [Shutdown] returns nil and [Run] returns nil. *)
Lemma listen_failure_is_only_logged_witness :
  goroutines (after MetalServer (sample_start MetalServer)) !! 3%nat =
    Some {| body := GoListenAndServe; gctx := 7; gpc := Running |} ∧
  inShutdown (httpServer (after MetalServer (sample_start MetalServer))) = false ∧
  errorString "listen tcp :8080: bind: address already in use" ≠ http_ErrServerClosed ∧
  ∃ w' w'',
    step MetalServer
      (Listen 3 (Some (errorString "listen tcp :8080: bind: address already in use")))
      (after MetalServer (sample_start MetalServer)) = Some w' ∧
    exec MetalServer [Cancel 7; RunStep 0; RunStep 0; ShutdownReturns 0 (DrainsAfter 0 None)] w'
      = Some w'' ∧
    calls w'' !! 0%nat = Some {| rctx := 7; rpc := Returned None |}.
Proof.
  assert (Hne : errorString "listen tcp :8080: bind: address already in use"
                ≠ http_ErrServerClosed) by discriminate.
  split; [reflexivity |]. split; [reflexivity |]. split; [exact Hne |].
  destruct (listen_failure_is_only_logged MetalServer
              (after MetalServer (sample_start MetalServer)) 3
              {| body := GoListenAndServe; gctx := 7; gpc := Running |}
              (errorString "listen tcp :8080: bind: address already in use")
              eq_refl eq_refl eq_refl eq_refl Hne)
    as (w' & Hstep & _ & _ & _ & _ & _ & _ & _ & _ & Hnil).
  destruct (Hnil 0%nat {| rctx := 7; rpc := AtWait |} (DrainsAfter 0 None)
              eq_refl eq_refl eq_refl) as (w'' & Hexec & Hc & _).
  exists w', w''. split; [exact Hstep |]. split; [exact Hexec | exact Hc].
Defined.

(** ** The handlers *)

Lemma ServeHTTP_routes (s : Metal.Server) env r :
  Handler (Metal.httpServer s) = routes →
  (Path r = "/health" → Metal.ServeHTTP s env r = Metal.handleHealth s env r) ∧
  (Path r = "/api/v1/status" → Metal.ServeHTTP s env r = Metal.handleStatus s env r).
Proof.
  intros Hh. unfold Metal.ServeHTTP. rewrite Hh.
  split; intros ->; reflexivity.
Qed.

(** C7.  [handleHealth] answers GET with 200 and the document
    [{status: ok}], whatever the server and its monitors are, and any other
    method with 405; it takes no lock, reads no monitor, and its answer does
    not depend on the server or the environment at all. *)
Theorem handleHealth_contract (s : Metal.Server) (env : Env) (r : Request) :
  (Method r = "GET" →
   serve (Metal.handleHealth s env r) =
     ({| Code := 200;
         Headers := [("Content-Type", "application/json")];
         Body := [Document (JObject [("status", JString "ok")])] |},
      [OpHeaderSet "Content-Type" "application/json";
       OpEncode (JObject [("status", JString "ok")]);
       OpWrite (Document (JObject [("status", JString "ok")]))])) ∧
  (Method r ≠ "GET" →
   Code (fst (serve (Metal.handleHealth s env r))) = 405 ∧
   Body (fst (serve (Metal.handleHealth s env r))) =
     [Text ("Method not allowed" +:+ newline)]) ∧
  (∀ k o, snd (serve (Metal.handleHealth s env r)) !! k = Some o →
     match o with
     | OpRLock | OpRUnlock | OpGetState _ | OpNow => False
     | _ => True
     end) ∧
  (∀ s' env', serve (Metal.handleHealth s' env' r) = serve (Metal.handleHealth s env r)).
Proof.
  unfold Metal.handleHealth, http_MethodGet.
  split_and!.
  - intros Hm. by rewrite decide_False by (by intros []).
  - intros Hm. by rewrite decide_True.
  - intros k o. destruct (decide (Method r ≠ "GET")); vm_compute;
      repeat (destruct k as [| k]; [by intros [= <-] |]); done.
  - done.
Qed.

(** An instance of C7: POST /health. *)
Lemma handleHealth_contract_witness :
  Method {| Method := "POST"; Path := "/health" |} ≠ "GET" ∧
  Code (fst (serve (Metal.handleHealth sample_server sample_env
                      {| Method := "POST"; Path := "/health" |}))) = 405.
Proof.
  assert (Hm : Method {| Method := "POST"; Path := "/health" |} ≠ "GET") by discriminate.
  split; [exact Hm |].
  destruct (handleHealth_contract sample_server sample_env
              {| Method := "POST"; Path := "/health" |}) as (_ & H405 & _).
  exact (proj1 (H405 Hm)).
Defined.

Lemma json_supported_status (st : SystemStatus) :
  json_supported (SystemStatus_json st) =
    float64_finite (BatteryLevel (Power_ (Health st))) &&
    float64_finite (Voltage (Power_ (Health st))) &&
    float64_finite (CPUTemp (Thermal_ (Health st))) &&
    float64_finite (GPUTemp (Thermal_ (Health st))) &&
    float64_finite (AmbientTemp (Thermal_ (Health st))).
Proof.
  destruct st as [id t [[b c vo] [cpu gpu amb fan thr] [co mo vn]]].
  cbn -[float64_finite].
  destruct (float64_finite b), (float64_finite vo), (float64_finite cpu),
    (float64_finite gpu), (float64_finite amb); reflexivity.
Qed.

Lemma handleStatus_GET (s : Metal.Server) (env : Env) (r : Request) :
  Method r = "GET" →
  serve (Metal.handleStatus s env r) =
    if json_supported (SystemStatus_json (status_of s env))
    then ({| Code := 200;
             Headers := [("Content-Type", "application/json")];
             Body := [Document (SystemStatus_json (status_of s env))] |},
          [OpRLock; OpGetState Power; OpGetState Thermal; OpGetState Security; OpNow;
           OpHeaderSet "Content-Type" "application/json";
           OpEncode (SystemStatus_json (status_of s env));
           OpWrite (Document (SystemStatus_json (status_of s env)));
           OpRUnlock])
    else ({| Code := 200;
             Headers := [("Content-Type", "application/json")];
             Body := [] |},
          [OpRLock; OpGetState Power; OpGetState Thermal; OpGetState Security; OpNow;
           OpHeaderSet "Content-Type" "application/json";
           OpEncode (SystemStatus_json (status_of s env));
           OpRUnlock]).
Proof.
  intros Hm. unfold Metal.handleStatus, http_MethodGet.
  rewrite decide_False by (by intros []).
  unfold status_of, serve, handle_bind, op, Header_Set, Encode, handle_bind, op, json_Encode.
  cbv zeta.
  match goal with
  | |- context [json_supported ?j] => destruct (json_supported j)
  end; reflexivity.
Qed.

Lemma handleStatus_other (s : Metal.Server) (env : Env) (r : Request) :
  Method r ≠ "GET" →
  serve (Metal.handleStatus s env r) =
    ({| Code := 405;
        Headers := [("X-Content-Type-Options", "nosniff");
                    ("Content-Type", "text/plain; charset=utf-8")];
        Body := [Text ("Method not allowed" +:+ newline)] |},
     [OpHeaderSet "Content-Type" "text/plain; charset=utf-8";
      OpHeaderSet "X-Content-Type-Options" "nosniff";
      OpWriteHeader 405;
      OpWrite (Text ("Method not allowed" +:+ newline))]).
Proof.
  intros Hm. unfold Metal.handleStatus, http_MethodGet. by rewrite decide_True.
Qed.

Lemma IsZero_after_epoch (t : time_Time) : 0 <= unixSec t → IsZero t = false.
Proof.
  intros H. unfold IsZero. apply andb_false_intro1, Z.eqb_neq.
  change unixToInternal with 62135596800. lia.
Qed.

(** C6, at the input where the code falls short of it: with a battery level
    that is NaN the encoder refuses the status, the handler drops the
    encoder's error, and the answer to GET /api/v1/status is 200 with a
    Content-Type of JSON and no body, so no status document at all. *)
Lemma handleStatus_NaN_reading :
  Method get_status = "GET" ∧
  fst (serve (Metal.handleStatus sample_server nan_env get_status)) =
    {| Code := 200; Headers := [("Content-Type", "application/json")]; Body := [] |} ∧
  ¬ ∃ st, Body (fst (serve (Metal.handleStatus sample_server nan_env get_status))) =
            [Document (SystemStatus_json st)].
Proof.
  split; [reflexivity |]. split; [vm_compute; reflexivity |].
  intros [st H]. vm_compute in H. discriminate H.
Qed.

(** X16.  When every floating-point reading of the snapshots is finite
    and the clock reads a time from the Unix epoch on, [handleStatus]
    answers GET with 200 and the JSON document of the status, whose
    device_id is the server's device identifier and whose time is the clock
    reading taken after the three snapshots and before the lock is released,
    and is not the zero time.  Any other method is answered 405. *)
Theorem handleStatus_contract (s : Metal.Server) (env : Env) (r : Request) :
  (Method r = "GET" → finite_snapshots s env → 0 <= unixSec (time_Now env) →
   serve (Metal.handleStatus s env r) =
     ({| Code := 200;
         Headers := [("Content-Type", "application/json")];
         Body := [Document (SystemStatus_json (status_of s env))] |},
      [OpRLock; OpGetState Power; OpGetState Thermal; OpGetState Security; OpNow;
       OpHeaderSet "Content-Type" "application/json";
       OpEncode (SystemStatus_json (status_of s env));
       OpWrite (Document (SystemStatus_json (status_of s env)));
       OpRUnlock]) ∧
   json_member "device_id" (SystemStatus_json (status_of s env)) =
     Some (JString (Metal.deviceID s)) ∧
   json_member "time" (SystemStatus_json (status_of s env)) = Some (JTime (time_Now env)) ∧
   IsZero (Status_Time (status_of s env)) = false) ∧
  (Method r ≠ "GET" →
   Code (fst (serve (Metal.handleStatus s env r))) = 405 ∧
   Body (fst (serve (Metal.handleStatus s env r))) =
     [Text ("Method not allowed" +:+ newline)]).
Proof.
  split.
  - intros Hm (Hb & Hv & Hc & Hg & Ha) Hclock.
    rewrite (handleStatus_GET s env r Hm), json_supported_status.
    cbn [status_of Health Power_ Thermal_ BatteryLevel Voltage CPUTemp GPUTemp AmbientTemp].
    rewrite Hb, Hv, Hc, Hg, Ha. cbn [andb].
    split_and!; try reflexivity. by apply IsZero_after_epoch.
  - intros Hm. by rewrite (handleStatus_other s env r Hm).
Qed.

(** An instance of X16: the request of the package's test. *)
Lemma handleStatus_contract_witness :
  Method get_status = "GET" ∧
  finite_snapshots sample_server sample_env ∧
  0 <= unixSec (time_Now sample_env) ∧
  json_member "device_id" (SystemStatus_json (status_of sample_server sample_env)) =
    Some (JString "test-device-001") ∧
  IsZero (Status_Time (status_of sample_server sample_env)) = false.
Proof.
  assert (Hm : Method get_status = "GET") by reflexivity.
  assert (Hf : finite_snapshots sample_server sample_env) by (by vm_compute).
  assert (Hc : 0 <= unixSec (time_Now sample_env)) by (by vm_compute).
  split; [exact Hm |]. split; [exact Hf |]. split; [exact Hc |].
  destruct (handleStatus_contract sample_server sample_env get_status)
    as ((_ & Hid & _ & Hz) & _); [exact Hm | exact Hf | exact Hc |].
  split; [exact Hid | exact Hz].
Defined.

(** C8, as stated, fails: the read lock is held while the power monitor's
    snapshot accessor runs. *)
Lemma handleStatus_lock_counterexample :
  snd (serve (Metal.handleStatus sample_server sample_env get_status)) !! 1%nat =
    Some (OpGetState Power) ∧
  lock_held (snd (serve (Metal.handleStatus sample_server sample_env get_status))) 1 = true ∧
  ¬ (∀ k m,
       snd (serve (Metal.handleStatus sample_server sample_env get_status)) !! k =
         Some (OpGetState m) →
       lock_held (snd (serve (Metal.handleStatus sample_server sample_env get_status))) k
         = false).
Proof.
  split; [by vm_compute |]. split; [by vm_compute |].
  intros H. specialize (H 1%nat Power). vm_compute in H. by specialize (H eq_refl).
Qed.

(** C8, amended.  A status pass takes the server's one read lock first and
    releases it last: the lock is taken once, released once, and held while
    every other operation of the handler runs: the three snapshot accessors,
    the clock, the header and the encoding of the response.  A request with
    another method takes no lock. *)
Theorem handleStatus_lock_discipline (s : Metal.Server) (env : Env) (r : Request) :
  (Method r = "GET" →
   head (snd (serve (Metal.handleStatus s env r))) = Some OpRLock ∧
   last (snd (serve (Metal.handleStatus s env r))) = Some OpRUnlock ∧
   filter (λ o, is_rlock o = true) (snd (serve (Metal.handleStatus s env r))) = [OpRLock] ∧
   filter (λ o, is_runlock o = true) (snd (serve (Metal.handleStatus s env r)))
     = [OpRUnlock] ∧
   snd (serve (Metal.handleStatus s env r)) !! 1%nat = Some (OpGetState Power) ∧
   snd (serve (Metal.handleStatus s env r)) !! 2%nat = Some (OpGetState Thermal) ∧
   snd (serve (Metal.handleStatus s env r)) !! 3%nat = Some (OpGetState Security) ∧
   snd (serve (Metal.handleStatus s env r)) !! 4%nat = Some OpNow ∧
   (∀ k o, snd (serve (Metal.handleStatus s env r)) !! k = Some o → (0 < k)%nat →
      lock_held (snd (serve (Metal.handleStatus s env r))) k = true) ∧
   lock_held (snd (serve (Metal.handleStatus s env r)))
     (length (snd (serve (Metal.handleStatus s env r)))) = false) ∧
  (Method r ≠ "GET" →
   ∀ k o, snd (serve (Metal.handleStatus s env r)) !! k = Some o →
     is_rlock o = false ∧ is_runlock o = false ∧
     lock_held (snd (serve (Metal.handleStatus s env r))) k = false).
Proof.
  split.
  - intros Hm. rewrite (handleStatus_GET s env r Hm).
    generalize (SystemStatus_json (status_of s env)). intros j.
    destruct (json_supported j); cbn [snd].
    all: split_and!; try reflexivity.
    all: intros k o Hk Hpos;
      do 9 (destruct k as [| k]; [first [lia | reflexivity | discriminate Hk] |]);
      discriminate Hk.
  - intros Hm. rewrite (handleStatus_other s env r Hm). cbn [snd].
    intros k o Hk.
    do 4 (destruct k as [| k]; [injection Hk as <-; by repeat split |]).
    by destruct k.
Qed.

(** An instance of C8, amended: the request of the package's test. *)
Lemma handleStatus_lock_discipline_witness :
  Method get_status = "GET" ∧
  lock_held (snd (serve (Metal.handleStatus sample_server sample_env get_status))) 3 = true.
Proof.
  assert (Hm : Method get_status = "GET") by reflexivity.
  split; [exact Hm |].
  destruct (handleStatus_lock_discipline sample_server sample_env get_status) as (Hget & _).
  destruct (Hget Hm) as (_ & _ & _ & _ & _ & _ & H3 & _ & Hheld & _).
  apply (Hheld 3%nat (OpGetState Security) H3). lia.
Defined.

(** ** More on the lifecycle *)

Lemma rejected_not_accepted pc : rejected pc = true → accepted pc = false.
Proof. destruct pc as [| | | | | | | | | [[] |]]; simpl; done. Qed.

(** X1.  However many callers race into [Run], the lock admits one at a
    time and the started check admits one for ever: two calls inside the
    locked section are the same call, two accepted calls are the same call,
    and a call is turned away only when another one was accepted. *)
Theorem Run_admits_one_call v addr h w i j ci cj :
  reachable v (fresh addr h) w →
  calls w !! i = Some ci → calls w !! j = Some cj →
  (in_cs (rpc ci) = true → writer (mux w) = Some i) ∧
  (in_cs (rpc ci) = true → in_cs (rpc cj) = true → i = j) ∧
  (accepted (rpc ci) = true → accepted (rpc cj) = true → i = j) ∧
  (rejected (rpc ci) = true →
   ∃ k ck, k ≠ i ∧ calls w !! k = Some ck ∧ accepted (rpc ck) = true).
Proof.
  intros Hreach Hi Hj. pose proof (reachable_Inv v addr h w Hreach) as HI.
  split_and!.
  - by apply (inv_cs v w HI).
  - intros Hci Hcj.
    pose proof (inv_cs v w HI i ci Hi Hci). pose proof (inv_cs v w HI j cj Hj Hcj).
    congruence.
  - by apply (inv_unique v w HI).
  - intros Hrej.
    pose proof (inv_rejected v w HI i ci Hi Hrej) as Hs.
    destruct (inv_quiet v w HI) as [(Hs' & _) | (k & ck & Hk & Hacc)]; [congruence |].
    exists k, ck. split_and!; try done.
    intros ->. simplify_eq. by rewrite (rejected_not_accepted _ Hrej) in Hacc.
Qed.

(** An instance of X1: a second caller is turned away while the first one
    waits. *)
Lemma Run_admits_one_call_witness :
  reachable MetalServer (fresh ":8080" routes)
    (after MetalServer (sample_start MetalServer ++ [CallRun 8; RunStep 1; RunStep 1])) ∧
  calls (after MetalServer (sample_start MetalServer ++ [CallRun 8; RunStep 1; RunStep 1]))
    !! 1%nat = Some {| rctx := 8; rpc := AtRejectUnlock |} ∧
  ∃ k ck, k ≠ 1%nat ∧
    calls (after MetalServer (sample_start MetalServer ++ [CallRun 8; RunStep 1; RunStep 1]))
      !! k = Some ck ∧ accepted (rpc ck) = true.
Proof.
  assert (Hr : reachable MetalServer (fresh ":8080" routes)
                 (after MetalServer
                    (sample_start MetalServer ++ [CallRun 8; RunStep 1; RunStep 1])))
    by (apply after_reachable; vm_compute; eauto).
  assert (Hc : calls (after MetalServer
                        (sample_start MetalServer ++ [CallRun 8; RunStep 1; RunStep 1]))
                 !! 1%nat = Some {| rctx := 8; rpc := AtRejectUnlock |})
    by (vm_compute; reflexivity).
  split; [exact Hr |]. split; [exact Hc |].
  destruct (Run_admits_one_call MetalServer ":8080" routes _ 1 1
              {| rctx := 8; rpc := AtRejectUnlock |} {| rctx := 8; rpc := AtRejectUnlock |}
              Hr Hc Hc) as (_ & _ & _ & Hrej).
  exact (Hrej eq_refl).
Defined.

(** X2.  The goroutines are those of the go statements of [Run], in program
    order and each started once: the monitors first, the listener last, all
    under the context of the accepted call.  Before a call is accepted there
    is none; once the accepted call is at the wait or beyond, all of them
    have been started. *)
Theorem goroutines_follow_the_go_statements v addr h w :
  reachable v (fresh addr h) w →
  ((∀ i c, calls w !! i = Some c → accepted (rpc c) = false) → goroutines w = []) ∧
  (∀ i c, calls w !! i = Some c → accepted (rpc c) = true →
     body <$> goroutines w = take (spawned v (rpc c)) (go_stmts v) ∧
     Forall (λ g, gctx g = rctx c) (goroutines w) ∧
     (rpc c = AtWait ∨ past_wait (rpc c) = true → body <$> goroutines w = go_stmts v)) ∧
  (∀ t t' g g', goroutines w !! t = Some g → goroutines w !! t' = Some g' →
     body g = body g' → t = t') ∧
  (∀ t g, goroutines w !! t = Some g → body g = GoListenAndServe →
     S t = length (go_stmts v)).
Proof.
  intros Hreach. pose proof (reachable_Inv v addr h w Hreach) as HI.
  split_and!.
  - intros Hnone.
    destruct (inv_quiet v w HI) as [(_ & Hg & _) | (k & ck & Hk & Hacc)]; [done |].
    by rewrite (Hnone k ck Hk) in Hacc.
  - intros i c Hc Hacc. destruct (inv_history v w HI i c Hc Hacc) as [B C _ _ _ _].
    split_and!; [done | by apply Forall_fmap in C |].
    intros Hpc. rewrite B. apply take_ge.
    destruct (rpc c); simpl in *; try lia; by destruct Hpc.
  - intros t t' g g'. apply (goroutine_unique v w); done.
  - intros t g Ht Hb.
    pose proof (goroutines_prefix v w HI) as [rest Hrest].
    assert (Hk : go_stmts v !! t = Some GoListenAndServe).
    { rewrite Hrest. apply lookup_app_l_Some. by rewrite list_lookup_fmap, Ht, <- Hb. }
    clear Hrest Ht.
    destruct v; simpl in Hk;
      do 5 (destruct t as [| t]; simpl in Hk; [first [discriminate Hk | reflexivity] |]);
      discriminate Hk.
Qed.

(** An instance of X2: the sample server at the wait. *)
Lemma goroutines_follow_the_go_statements_witness :
  reachable MetalServer (fresh ":8080" routes) (after MetalServer (sample_start MetalServer)) ∧
  body <$> goroutines (after MetalServer (sample_start MetalServer)) =
    [GoMonitor Power; GoMonitor Thermal; GoMonitor Security; GoListenAndServe].
Proof.
  assert (Hr : reachable MetalServer (fresh ":8080" routes)
                 (after MetalServer (sample_start MetalServer)))
    by (apply after_reachable; vm_compute; eauto).
  split; [exact Hr |].
  destruct (goroutines_follow_the_go_statements MetalServer ":8080" routes _ Hr)
    as (_ & Hacc & _).
  destruct (Hacc 0%nat {| rctx := 7; rpc := AtWait |} eq_refl eq_refl) as (_ & _ & Hall).
  apply Hall. by left.
Defined.

(** X3.  Nothing but the cancellation of its own context gets a waiting
    [Run] any further: after any other step (another caller, a monitor or
    the listener returning, a request, the cancellation of another context)
    the call is where it was, still blocked. *)
Theorem only_its_cancellation_ends_the_wait v a w w' i c :
  calls w !! i = Some c → rpc c = AtWait → rctx c ∉ done w →
  step v a w = Some w' → a ≠ Cancel (rctx c) →
  calls w' !! i = Some c ∧ (rctx c ∉ done w') ∧ Run v i w' = None.
Proof.
  intros Hc Hpc Hnd Hstep Hne.
  assert (Hgoal : calls w' !! i = Some c ∧ rctx c ∉ done w').
  { destruct a as [ctx | j | j d | ctx | t r | t r | t err | |]; simpl in Hstep.
    - simplify_eq. simpl. split; [by apply lookup_app_l_Some | done].
    - destruct (decide (j = i)) as [-> | Hji].
      + rewrite (Run_at v i w c Hc) in Hstep. unfold Run_from in Hstep.
        rewrite Hpc in Hstep. by rewrite decide_False in Hstep.
      + unfold Run in Hstep.
        destruct (calls w !! j) as [cj |] eqn:Hj; simpl in Hstep; [| done].
        unfold Run_from in Hstep.
        destruct (rpc cj); repeat case_match; simplify_eq; simpl;
          by rewrite list_lookup_insert_ne.
    - unfold Run_after_Shutdown in Hstep.
      destruct (calls w !! j) as [cj |] eqn:Hj; simpl in Hstep; [| done].
      destruct (rpc cj) eqn:Hpcj; simplify_eq. simpl.
      destruct (decide (j = i)) as [-> | Hji]; [congruence |].
      by rewrite list_lookup_insert_ne.
    - simplify_eq. simpl. split; [done |].
      assert (ctx ≠ rctx c) by congruence. set_solver.
    - unfold monitor_returns in Hstep.
      repeat (progress (simplify_option_eq; try case_match)); done.
    - unfold listen, log_unless_closed in Hstep.
      repeat (progress (simplify_option_eq; try case_match)); done.
    - unfold serve_returns, log_unless_closed in Hstep.
      repeat (progress (simplify_option_eq; try case_match)); done.
    - case_decide; simplify_eq. done.
    - destruct (readers (mux w)); simplify_eq. done. }
  destruct Hgoal as [Hc' Hnd']. split_and!; try done.
  rewrite (Run_at v i w' c Hc'). unfold Run_from. rewrite Hpc. by rewrite decide_False.
Qed.

(** An instance of X3: cancelling context 9 leaves the sample server, which
    runs under context 7, waiting. *)
Lemma only_its_cancellation_ends_the_wait_witness :
  calls (after MetalServer (sample_start MetalServer)) !! 0%nat =
    Some {| rctx := 7; rpc := AtWait |} ∧
  (7%nat ∉ done (after MetalServer (sample_start MetalServer))) ∧
  ∃ w', step MetalServer (Cancel 9) (after MetalServer (sample_start MetalServer)) = Some w' ∧
        Run MetalServer 0 w' = None.
Proof.
  assert (Hnd : 7%nat ∉ done (after MetalServer (sample_start MetalServer)))
    by (vm_compute; set_solver).
  split; [reflexivity |]. split; [exact Hnd |].
  eexists. split; [reflexivity |].
  apply (only_its_cancellation_ends_the_wait MetalServer (Cancel 9)
           (after MetalServer (sample_start MetalServer)) _ 0
           {| rctx := 7; rpc := AtWait |} eq_refl eq_refl Hnd eq_refl).
  discriminate.
Defined.







(** ** From [New] to [Run] *)

(** X6.  A server that [New] returns is wired as the source says: one GPIO
    controller, the one [gpio.New] returned, is given to every manager that
    takes one, every manager gets the configured device identifier, the
    server holds exactly the managers the constructors returned, its flag is
    down, its lock free, and its HTTP server has the configured address and
    the routes.  Both revisions. *)
Theorem New_wires_the_server (hw : Platform) (cfg : Config)
    (handler : list (string * HandlerFunc)) :
  (∀ srv made, Metal.New hw cfg = ((Some srv, None), made) →
     DeviceID cfg ≠ "" ∧
     gpio_New hw = inr (Metal.gpio srv) ∧
     made =
       [CallGpioNew;
        CallPowerNew {| power_GPIO := Metal.gpio srv; power_DeviceID := DeviceID cfg;
                        power_callbacks := true |};
        CallThermalNew {| thermal_GPIO := Metal.gpio srv; thermal_DeviceID := DeviceID cfg;
                          thermal_callbacks := true |};
        CallSecureNew {| secure_GPIO := Metal.gpio srv; secure_DeviceID := DeviceID cfg;
                         secure_callbacks := true |}] ∧
     power_New hw {| power_GPIO := Metal.gpio srv; power_DeviceID := DeviceID cfg;
                     power_callbacks := true |} = inr (Metal.power srv) ∧
     thermal_New hw {| thermal_GPIO := Metal.gpio srv; thermal_DeviceID := DeviceID cfg;
                       thermal_callbacks := true |} = inr (Metal.thermal srv) ∧
     secure_New hw {| secure_GPIO := Metal.gpio srv; secure_DeviceID := DeviceID cfg;
                      secure_callbacks := true |} = inr (Metal.security srv) ∧
     Metal.deviceID srv = DeviceID cfg ∧
     Metal_world srv = fresh (HTTPAddr cfg) routes) ∧
  (∀ srv made, Integration.New handler hw cfg = ((Some srv, None), made) →
     DeviceID cfg ≠ "" ∧
     gpio_New hw = inr (Integration.gpio srv) ∧
     made =
       [CallGpioNew;
        CallPowerNew {| power_GPIO := Integration.gpio srv; power_DeviceID := DeviceID cfg;
                        power_callbacks := false |};
        CallThermalNew {| thermal_GPIO := Integration.gpio srv;
                          thermal_DeviceID := DeviceID cfg; thermal_callbacks := false |};
        CallStateNew {| state_DeviceID := DeviceID cfg |};
        CallDiagnosticsNew {| diagnostics_DeviceID := DeviceID cfg;
                              diagnostics_GPIO := Integration.gpio srv |}] ∧
     power_New hw {| power_GPIO := Integration.gpio srv; power_DeviceID := DeviceID cfg;
                     power_callbacks := false |} = inr (Integration.power srv) ∧
     thermal_New hw {| thermal_GPIO := Integration.gpio srv;
                       thermal_DeviceID := DeviceID cfg; thermal_callbacks := false |}
       = inr (Integration.thermal srv) ∧
     state_New hw {| state_DeviceID := DeviceID cfg |} = inr (Integration.state srv) ∧
     diagnostics_New hw {| diagnostics_DeviceID := DeviceID cfg;
                           diagnostics_GPIO := Integration.gpio srv |}
       = inr (Integration.diag srv) ∧
     Integration.deviceID srv = DeviceID cfg ∧
     Integration.httpAddr srv = HTTPAddr cfg ∧
     Integration_world srv = fresh (HTTPAddr cfg) handler).
Proof.
  split; intros srv made.
  - unfold Metal.New, Metal.build, go_pair, build_bind, construct, build_fail, build_ret.
    destruct (decide (DeviceID cfg = "")) as [He | Hne]; simpl; [done |].
    destruct (gpio_New hw) as [e1 | g] eqn:H1; simpl; [done |].
    destruct (power_New hw _) as [e2 | pm] eqn:H2; simpl; [done |].
    destruct (thermal_New hw _) as [e3 | tm] eqn:H3; simpl; [done |].
    destruct (secure_New hw _) as [e4 | sm] eqn:H4; simpl; [done |].
    intros [= <- <-]. simpl. by split_and!.
  - unfold Integration.New, Integration.build, go_pair, build_bind, construct,
      build_fail, build_ret.
    destruct (decide (DeviceID cfg = "")) as [He | Hne]; simpl; [done |].
    destruct (gpio_New hw) as [e1 | g] eqn:H1; simpl; [done |].
    destruct (power_New hw _) as [e2 | pm] eqn:H2; simpl; [done |].
    destruct (thermal_New hw _) as [e3 | tm] eqn:H3; simpl; [done |].
    destruct (state_New hw _) as [e4 | sm] eqn:H4; simpl; [done |].
    destruct (diagnostics_New hw _) as [e5 | dm] eqn:H5; simpl; [done |].
    intros [= <- <-]. simpl. by split_and!.
Qed.

(** An instance of X6: the configuration of the package's test on a platform
    where every constructor succeeds. *)
Lemma New_wires_the_server_witness :
  ∃ srv made,
    Metal.New sample_platform sample_config = ((Some srv, None), made) ∧
    Metal.deviceID srv = "test-device-001" ∧
    Metal_world srv = fresh ":0" routes.
Proof.
  destruct (Metal.New sample_platform sample_config) as [[[srv |] [e |]] made] eqn:HN;
    try (vm_compute in HN; discriminate HN).
  exists srv, made. split; [reflexivity |].
  destruct (New_wires_the_server sample_platform sample_config routes) as (HM & _).
  destruct (HM srv made HN) as (_ & _ & _ & _ & _ & _ & Hid & Hw).
  split; [exact Hid | exact Hw].
Defined.

Lemma fresh_runs_until_cancelled v addr h ctx d :
  runs_until_cancelled v ctx d (fresh addr h).
Proof.
  set (c0 := {| rctx := ctx; rpc := AtLock |}).
  set (w0 := with_calls (calls (fresh addr h) ++ [c0]) (fresh addr h)).
  destruct (solo_accept v w0 0 c0 eq_refl eq_refl eq_refl eq_refl eq_refl)
    as (w1 & He1 & Hc1 & Hg1 & Hs1 & Hm1 & Hev1 & Hh1 & Hd1).
  assert (Hcalls1 : calls w1 = [{| rctx := ctx; rpc := AtWait |}]) by (by rewrite Hc1).
  assert (Hlk1 : calls w1 !! 0%nat = Some {| rctx := ctx; rpc := AtWait |})
    by (by rewrite Hcalls1).
  set (w1' := with_done ({[ctx]} ∪ done w1) w1).
  pose proof (solo_shutdown v w1' 0 {| rctx := ctx; rpc := AtWait |} d Hlk1 eq_refl
                ltac:(simpl; set_solver)) as He2.
  eexists w1, _. split_and!.
  - exact He1.
  - exact Hcalls1.
  - by rewrite Hg1.
  - exact Hs1.
  - by rewrite Hev1.
  - rewrite (Run_at v 0 w1 _ Hlk1). unfold Run_from. simpl.
    rewrite decide_False; [done |]. rewrite Hd1. simpl. set_solver.
  - exact He2.
  - simpl. by rewrite Hcalls1.
  - done.
  - simpl. by rewrite Hev1.
Qed.

(** X7.  A server that [New] returns can be run: the first call of [Run] on
    it is accepted, starts every monitor and the listener and waits; when
    its context is cancelled it calls [Shutdown] once and returns what
    [Shutdown] yields (nil, or its error wrapped), without waiting for the
    goroutines.  Both revisions. *)
Theorem New_then_Run_until_cancelled (hw : Platform) (cfg : Config)
    (handler : list (string * HandlerFunc)) (ctx : nat) (d : Drain) :
  (∀ srv made, Metal.New hw cfg = ((Some srv, None), made) →
     runs_until_cancelled MetalServer ctx d (Metal_world srv)) ∧
  (∀ srv made, Integration.New handler hw cfg = ((Some srv, None), made) →
     runs_until_cancelled IntegrationServer ctx d (Integration_world srv)).
Proof.
  split; intros srv made.
  - unfold Metal.New, Metal.build, go_pair, build_bind, construct, build_fail, build_ret.
    destruct (decide (DeviceID cfg = "")) as [He | Hne]; simpl; [done |].
    destruct (gpio_New hw) as [e1 | g] eqn:H1; simpl; [done |].
    destruct (power_New hw _) as [e2 | pm] eqn:H2; simpl; [done |].
    destruct (thermal_New hw _) as [e3 | tm] eqn:H3; simpl; [done |].
    destruct (secure_New hw _) as [e4 | sm] eqn:H4; simpl; [done |].
    intros [= <- <-]. apply (fresh_runs_until_cancelled MetalServer).
  - unfold Integration.New, Integration.build, go_pair, build_bind, construct,
      build_fail, build_ret.
    destruct (decide (DeviceID cfg = "")) as [He | Hne]; simpl; [done |].
    destruct (gpio_New hw) as [e1 | g] eqn:H1; simpl; [done |].
    destruct (power_New hw _) as [e2 | pm] eqn:H2; simpl; [done |].
    destruct (thermal_New hw _) as [e3 | tm] eqn:H3; simpl; [done |].
    destruct (state_New hw _) as [e4 | sm] eqn:H4; simpl; [done |].
    destruct (diagnostics_New hw _) as [e5 | dm] eqn:H5; simpl; [done |].
    intros [= <- <-]. apply (fresh_runs_until_cancelled IntegrationServer).
Qed.

(** An instance of X7: the server of the package's test, cancelled, with a
    listener that drains at once. *)
Lemma New_then_Run_until_cancelled_witness :
  ∃ srv made,
    Metal.New sample_platform sample_config = ((Some srv, None), made) ∧
    runs_until_cancelled MetalServer 7 (DrainsAfter 0 None) (Metal_world srv).
Proof.
  destruct (Metal.New sample_platform sample_config) as [[[srv |] [e |]] made] eqn:HN;
    try (vm_compute in HN; discriminate HN).
  exists srv, made. split; [reflexivity |].
  destruct (New_then_Run_until_cancelled sample_platform sample_config routes 7
              (DrainsAfter 0 None)) as (HM & _).
  exact (HM srv made HN).
Defined.

(** ** The handlers behind the routes *)

Lemma Metal_New_success hw cfg srv made :
  Metal.New hw cfg = ((Some srv, None), made) →
  Metal.deviceID srv = DeviceID cfg ∧
  Metal.httpServer srv = http_Server_lit (HTTPAddr cfg) routes.
Proof.
  unfold Metal.New, Metal.build, go_pair, build_bind, construct, build_fail, build_ret.
  destruct (decide (DeviceID cfg = "")) as [He | Hne]; simpl; [done |].
  destruct (gpio_New hw) as [e1 | g] eqn:H1; simpl; [done |].
  destruct (power_New hw _) as [e2 | pm] eqn:H2; simpl; [done |].
  destruct (thermal_New hw _) as [e3 | tm] eqn:H3; simpl; [done |].
  destruct (secure_New hw _) as [e4 | sm] eqn:H4; simpl; [done |].
  by intros [= <- <-].
Qed.

Lemma handleHealth_GET (s : Metal.Server) env r :
  Method r = "GET" →
  serve (Metal.handleHealth s env r) =
    ({| Code := 200;
        Headers := [("Content-Type", "application/json")];
        Body := [Document (JObject [("status", JString "ok")])] |},
     [OpHeaderSet "Content-Type" "application/json";
      OpEncode (JObject [("status", JString "ok")]);
      OpWrite (Document (JObject [("status", JString "ok")]))]).
Proof.
  intros Hm. unfold Metal.handleHealth, http_MethodGet.
  by rewrite decide_False by (by intros []).
Qed.

Lemma handleHealth_other (s : Metal.Server) env r :
  Method r ≠ "GET" → Code (fst (serve (Metal.handleHealth s env r))) = 405.
Proof.
  intros Hm. unfold Metal.handleHealth, http_MethodGet. by rewrite decide_True.
Qed.

(** X8.  The assertions of [TestServer] hold of every server that [New]
    returns for the test's configuration: through the routes, GET /health
    gives 200 and a document whose status is ok, POST /health gives 405, and
    GET /api/v1/status gives 200 and a document whose device_id is
    test-device-001 and whose time is not the zero time (the last for
    finite readings and a clock from the epoch on). *)
Theorem TestServer_assertions (hw : Platform) (env : Env) (srv : Metal.Server)
    (made : list Call) :
  Metal.New hw sample_config = ((Some srv, None), made) →
  (Code (fst (serve (Metal.ServeHTTP srv env get_health))) = 200 ∧
   ∃ j, Body (fst (serve (Metal.ServeHTTP srv env get_health))) = [Document j] ∧
        json_member "status" j = Some (JString "ok")) ∧
  Code (fst (serve (Metal.ServeHTTP srv env post_health))) = 405 ∧
  (finite_snapshots srv env → 0 <= unixSec (time_Now env) →
   Code (fst (serve (Metal.ServeHTTP srv env get_status))) = 200 ∧
   ∃ j t, Body (fst (serve (Metal.ServeHTTP srv env get_status))) = [Document j] ∧
          json_member "device_id" j = Some (JString "test-device-001") ∧
          json_member "time" j = Some (JTime t) ∧ IsZero t = false).
Proof.
  intros HN. destruct (Metal_New_success hw sample_config srv made HN) as (Hid & Hh).
  assert (Hroutes : Handler (Metal.httpServer srv) = routes) by (by rewrite Hh).
  destruct (ServeHTTP_routes srv env get_health Hroutes) as (Hgh & _).
  destruct (ServeHTTP_routes srv env post_health Hroutes) as (Hph & _).
  destruct (ServeHTTP_routes srv env get_status Hroutes) as (_ & Hgs).
  rewrite (Hgh eq_refl), (Hph eq_refl), (Hgs eq_refl).
  split_and!.
  - by rewrite (handleHealth_GET srv env get_health eq_refl).
  - rewrite (handleHealth_GET srv env get_health eq_refl). by eexists.
  - apply handleHealth_other. discriminate.
  - intros (Hb & Hv & Hc & Hg & Ha) Hclock.
    rewrite (handleStatus_GET srv env get_status eq_refl), json_supported_status.
    cbn [status_of Health Power_ Thermal_ BatteryLevel Voltage CPUTemp GPUTemp AmbientTemp].
    rewrite Hb, Hv, Hc, Hg, Ha. cbn [andb fst Code Body].
    split; [reflexivity |].
    eexists _, (time_Now env). split; [reflexivity |].
    split_and!; [| reflexivity | by apply IsZero_after_epoch].
    cbn. by rewrite Hid.
Qed.

(** An instance of X8: the platform on which every constructor succeeds. *)
Lemma TestServer_assertions_witness :
  ∃ srv made,
    Metal.New sample_platform sample_config = ((Some srv, None), made) ∧
    Code (fst (serve (Metal.ServeHTTP srv sample_env post_health))) = 405.
Proof.
  destruct (Metal.New sample_platform sample_config) as [[[srv |] [e |]] made] eqn:HN;
    try (vm_compute in HN; discriminate HN).
  exists srv, made. split; [reflexivity |].
  destruct (TestServer_assertions sample_platform sample_env srv made HN) as (_ & H405 & _).
  exact H405.
Defined.

(** X9.  In the document that answers GET /api/v1/status every member of
    health carries the reading of its own monitor: the battery level,
    charging flag and voltage of the server's power manager, the three
    temperatures, fan speed and throttling flag of its thermal monitor, and
    the three flags of its tamper manager, under the names of the struct
    tags. *)
Theorem handleStatus_reports_each_reading (s : Metal.Server) (env : Env) (r : Request) :
  Method r = "GET" → finite_snapshots s env →
  ∃ j, Body (fst (serve (Metal.handleStatus s env r))) = [Document j] ∧
    json_path ["health"; "power"; "battery_level"] j =
      Some (JFloat (PowerState_BatteryLevel (power_GetState env (Metal.power s)))) ∧
    json_path ["health"; "power"; "charging"] j =
      Some (JBool (PowerState_Charging (power_GetState env (Metal.power s)))) ∧
    json_path ["health"; "power"; "voltage"] j =
      Some (JFloat (PowerState_Voltage (power_GetState env (Metal.power s)))) ∧
    json_path ["health"; "thermal"; "cpu_temp"] j =
      Some (JFloat (ThermalState_CPUTemp (thermal_GetState env (Metal.thermal s)))) ∧
    json_path ["health"; "thermal"; "gpu_temp"] j =
      Some (JFloat (ThermalState_GPUTemp (thermal_GetState env (Metal.thermal s)))) ∧
    json_path ["health"; "thermal"; "ambient_temp"] j =
      Some (JFloat (ThermalState_AmbientTemp (thermal_GetState env (Metal.thermal s)))) ∧
    json_path ["health"; "thermal"; "fan_speed"] j =
      Some (JInt (ThermalState_FanSpeed (thermal_GetState env (Metal.thermal s)))) ∧
    json_path ["health"; "thermal"; "throttled"] j =
      Some (JBool (ThermalState_Throttled (thermal_GetState env (Metal.thermal s)))) ∧
    json_path ["health"; "security"; "case_open"] j =
      Some (JBool (TamperState_CaseOpen (secure_GetState env (Metal.security s)))) ∧
    json_path ["health"; "security"; "motion_detected"] j =
      Some (JBool (TamperState_MotionDetected (secure_GetState env (Metal.security s)))) ∧
    json_path ["health"; "security"; "voltage_normal"] j =
      Some (JBool (TamperState_VoltageNormal (secure_GetState env (Metal.security s)))).
Proof.
  intros Hm (Hb & Hv & Hc & Hg & Ha).
  rewrite (handleStatus_GET s env r Hm), json_supported_status.
  cbn [status_of Health Power_ Thermal_ BatteryLevel Voltage CPUTemp GPUTemp AmbientTemp].
  rewrite Hb, Hv, Hc, Hg, Ha. cbn [andb fst Body].
  eexists. split; [reflexivity |].
  split_and!; reflexivity.
Qed.

(** An instance of X9: the sample readings. *)
Lemma handleStatus_reports_each_reading_witness :
  Method get_status = "GET" ∧ finite_snapshots sample_server sample_env ∧
  ∃ j, Body (fst (serve (Metal.handleStatus sample_server sample_env get_status)))
         = [Document j] ∧
       json_path ["health"; "thermal"; "fan_speed"] j = Some (JInt 1200).
Proof.
  assert (Hm : Method get_status = "GET") by reflexivity.
  assert (Hf : finite_snapshots sample_server sample_env) by (by vm_compute).
  split; [exact Hm |]. split; [exact Hf |].
  destruct (handleStatus_reports_each_reading sample_server sample_env get_status Hm Hf)
    as (j & Hbody & _ & _ & _ & _ & _ & _ & Hfan & _).
  exists j. split; [exact Hbody | exact Hfan].
Defined.

(** ** The entry point *)

Lemma Integration_New_cases handler hw cfg :
  DeviceID cfg ≠ "" →
  head (snd (Integration.New handler hw cfg)) = Some CallGpioNew ∧
  ((∃ srv, fst (Integration.New handler hw cfg) = (Some srv, None) ∧
           Integration.deviceID srv = DeviceID cfg ∧
           Integration.httpServer srv = http_Server_lit (HTTPAddr cfg) handler ∧
           Integration.started srv = false ∧ Integration.mux srv = unlocked ∧
           length (snd (Integration.New handler hw cfg)) = 5%nat) ∨
   (∃ c e0, fst (Integration.New handler hw cfg) =
              (None, Some (wrapError (Integration.failure_text (package_of c)) e0)) ∧
            last (snd (Integration.New handler hw cfg)) = Some c ∧
            call_error hw c = Some e0)).
Proof.
  intros Hne.
  unfold Integration.New, Integration.build, go_pair, build_bind, construct,
    build_fail, build_ret.
  rewrite decide_False by done. simpl.
  destruct (gpio_New hw) as [e1 | g] eqn:H1; simpl.
  { split; [done |]. right. exists CallGpioNew, e1. simpl. by rewrite H1. }
  destruct (power_New hw _) as [e2 | pm] eqn:H2; simpl.
  { split; [done |]. right. eexists (CallPowerNew _), e2. simpl. by rewrite H2. }
  destruct (thermal_New hw _) as [e3 | tm] eqn:H3; simpl.
  { split; [done |]. right. eexists (CallThermalNew _), e3. simpl. by rewrite H3. }
  destruct (state_New hw _) as [e4 | sm] eqn:H4; simpl.
  { split; [done |]. right. eexists (CallStateNew _), e4. simpl. by rewrite H4. }
  destruct (diagnostics_New hw _) as [e5 | dm] eqn:H5; simpl.
  { split; [done |]. right. eexists (CallDiagnosticsNew _), e5. simpl. by rewrite H5. }
  split; [done |]. left. eexists. by split_and!.
Qed.

(** X10.  [main] stops with "device-id is required" before it constructs
    anything when the flag is missing or empty.  Otherwise it calls [New]
    with the device identifier and the address of the flags (":8080" when
    http-addr is not given), starting with the GPIO controller, and either
    has a server with that identifier and address, or stops with "Failed to
    create server: " and the text of the package whose constructor failed,
    followed by that constructor's error; [New]'s own check of the device
    identifier never fires. *)
Theorem main_start_outcomes (handler : list (string * HandlerFunc)) (hw : Platform)
    (f : Flags) :
  (flag_device_id f = None ∨ flag_device_id f = Some "" →
   main_start handler hw f = (Stopped (ExitFatal "device-id is required"), [])) ∧
  (∀ id, flag_device_id f = Some id → id ≠ "" →
     head (snd (main_start handler hw f)) = Some CallGpioNew ∧
     ((∃ srv, fst (main_start handler hw f) = Up srv ∧
              Integration.deviceID srv = id ∧
              Addr (Integration.httpServer srv) = flag_String (flag_http_addr f) ":8080" ∧
              (flag_http_addr f = None → Addr (Integration.httpServer srv) = ":8080") ∧
              Integration_world srv
                = fresh (flag_String (flag_http_addr f) ":8080") handler) ∨
      (∃ c e0, last (snd (main_start handler hw f)) = Some c ∧
               call_error hw c = Some e0 ∧
               fst (main_start handler hw f) =
                 Stopped (ExitFatal ("Failed to create server: " +:+
                                     Integration.failure_text (package_of c) +:+ ": " +:+
                                     Error e0))))).
Proof.
  split.
  - intros Hflag. unfold main_start.
    assert (Hid : flag_String (flag_device_id f) "" = "") by (by destruct Hflag as [-> | ->]).
    cbv zeta. by rewrite Hid, decide_True.
  - intros id Hflag Hne. unfold main_start. cbv zeta.
    assert (Hid : flag_String (flag_device_id f) "" = id) by (by rewrite Hflag).
    rewrite Hid, decide_False by done.
    set (cfg := {| DeviceID := id; HTTPAddr := flag_String (flag_http_addr f) ":8080" |}).
    destruct (Integration_New_cases handler hw cfg Hne)
      as (Hhead & [(srv & HN & Hd & Hh & Hs & Hm & _) | (c & e0 & HN & Hlast & Herr)]).
    + destruct (Integration.New handler hw cfg) as [[o e] made]. simpl in *. simplify_eq.
      split; [done |]. left. exists srv. split_and!; try done.
      * by rewrite Hh.
      * intros Hnone. by rewrite Hh, Hnone.
      * unfold Integration_world. by rewrite Hs, Hm, Hh.
    + destruct (Integration.New handler hw cfg) as [[o e] made]. simpl in *. simplify_eq.
      split; [done |]. right. by exists c, e0.
Qed.

(** An instance of X10: no http-addr flag, every constructor succeeds. *)
Lemma main_start_outcomes_witness :
  flag_device_id {| flag_device_id := Some "rpi-0042"; flag_http_addr := None |}
    = Some "rpi-0042" ∧
  "rpi-0042" ≠ "" ∧
  head (snd (main_start routes sample_platform
               {| flag_device_id := Some "rpi-0042"; flag_http_addr := None |}))
    = Some CallGpioNew.
Proof.
  assert (Hne : "rpi-0042" ≠ "") by discriminate.
  split; [reflexivity |]. split; [exact Hne |].
  destruct (main_start_outcomes routes sample_platform
              {| flag_device_id := Some "rpi-0042"; flag_http_addr := None |}) as (_ & H).
  exact (proj1 (H "rpi-0042" eq_refl Hne)).
Defined.

(** X11.  When [main] has its server, its one call of [Run] is accepted and
    blocks until the signal handler cancels the context; then [main] exits
    with status 0 if [Shutdown] returned nil, and with "Server error: error
    shutting down HTTP server: " and the error of [Shutdown] otherwise.  It
    never exits with the already-started error. *)
Theorem main_serves_until_cancelled (handler : list (string * HandlerFunc)) (hw : Platform)
    (f : Flags) (srv : Integration.Server) (made : list Call) (d : Drain) :
  main_start handler hw f = (Up srv, made) →
  runs_until_cancelled IntegrationServer 0 d (Integration_world srv) ∧
  main_exit (shutdown_result (http_Shutdown gracePeriod d)) =
    match http_Shutdown gracePeriod d with
    | None => ExitOK
    | Some err =>
        ExitFatal ("Server error: error shutting down HTTP server: " +:+ Error err)
    end ∧
  main_exit (shutdown_result (http_Shutdown gracePeriod d)) ≠
    main_exit (Some ErrAlreadyStarted).
Proof.
  intros Hmain.
  assert (Hw : ∃ addr, Integration_world srv = fresh addr handler).
  { unfold main_start in Hmain. cbv zeta in Hmain.
    destruct (decide (flag_String (flag_device_id f) "" = "")) as [? | Hne]; [done |].
    set (cfg := {| DeviceID := flag_String (flag_device_id f) "";
                   HTTPAddr := flag_String (flag_http_addr f) ":8080" |}) in *.
    destruct (Integration_New_cases handler hw cfg Hne)
      as (_ & [(srv' & HN & _ & Hh & Hs & Hm & _) | (c & e0 & HN & _)]);
      destruct (Integration.New handler hw cfg) as [[o e] made']; simpl in *;
      simplify_eq.
    exists (HTTPAddr cfg). unfold Integration_world. by rewrite Hs, Hm, Hh. }
  destruct Hw as [addr ->].
  split_and!.
  - apply fresh_runs_until_cancelled.
  - by destruct (http_Shutdown gracePeriod d).
  - destruct (http_Shutdown gracePeriod d); simpl; discriminate.
Qed.

(** An instance of X11: the listener never drains. *)
Lemma main_serves_until_cancelled_witness :
  ∃ srv made,
    main_start routes sample_platform
      {| flag_device_id := Some "rpi-0042"; flag_http_addr := None |} = (Up srv, made) ∧
    main_exit (shutdown_result (http_Shutdown gracePeriod NeverDrains)) =
      ExitFatal "Server error: error shutting down HTTP server: context deadline exceeded".
Proof.
  destruct (main_start routes sample_platform
              {| flag_device_id := Some "rpi-0042"; flag_http_addr := None |})
    as [[e | srv |] made] eqn:Hmain; try (vm_compute in Hmain; discriminate Hmain).
  exists srv, made. split; [reflexivity |].
  destruct (main_serves_until_cancelled routes sample_platform _ srv made NeverDrains Hmain)
    as (_ & Hexit & _).
  exact Hexit.
Defined.

(** ** The configuration from the environment *)

Lemma getEnvOrDefault_agree (env1 env2 : gmap string string) (key d : string) :
  config.os_Getenv env1 key = config.os_Getenv env2 key →
  config.getEnvOrDefault env1 key d = config.getEnvOrDefault env2 key d.
Proof. unfold config.getEnvOrDefault. by intros ->. Qed.

Lemma getEnvFloatOrDefault_agree P (env1 env2 : gmap string string) (key : string) d :
  config.os_Getenv env1 key = config.os_Getenv env2 key →
  config.getEnvFloatOrDefault P env1 key d = config.getEnvFloatOrDefault P env2 key d.
Proof. unfold config.getEnvFloatOrDefault. by intros ->. Qed.

Lemma getEnvOrDefault_empty (env : gmap string string) (key : string) :
  config.getEnvOrDefault env key "" = config.os_Getenv env key.
Proof. unfold config.getEnvOrDefault. cbv zeta. case_decide; [done |]. by destruct (decide (config.os_Getenv env key = "")). Qed.

Lemma getEnvOrDefault_nonempty (env : gmap string string) (key d : string) :
  d ≠ "" → config.getEnvOrDefault env key d ≠ "".
Proof. intros Hd. unfold config.getEnvOrDefault. cbv zeta. by case_decide. Qed.

Lemma getEnvOrDefault_unset (env : gmap string string) (key d : string) :
  config.os_Getenv env key = "" → config.getEnvOrDefault env key d = d.
Proof. intros He. unfold config.getEnvOrDefault. cbv zeta. rewrite He. by case_decide. Qed.

Lemma getEnvFloatOrDefault_unparsed P (env : gmap string string) (key : string) d :
  config.os_Getenv env key = "" ∨ P (config.os_Getenv env key) = None →
  config.getEnvFloatOrDefault P env key d = d.
Proof.
  intros He. unfold config.getEnvFloatOrDefault. cbv zeta.
  case_decide as Hv; [| done]. destruct He as [He | He]; [done |]. by rewrite He.
Qed.

Lemma os_Getenv_delete_ne (env : gmap string string) (k key : string) :
  k ≠ key → config.os_Getenv (delete k env) key = config.os_Getenv env key.
Proof. intros Hne. unfold config.os_Getenv. by rewrite lookup_delete_ne. Qed.

Lemma os_Getenv_delete_eq (env : gmap string string) (k : string) :
  config.os_Getenv (delete k env) k = "".
Proof. unfold config.os_Getenv. by rewrite lookup_delete_eq. Qed.

Lemma LoadConfig_unset P (env : gmap string string) :
  config.os_Getenv env "WRALE_DEVICE_ID" = "" →
  config.LoadConfig P env = (None, Some (errorString "WRALE_DEVICE_ID is required")).
Proof.
  intros He. unfold config.LoadConfig. cbv zeta. cbn [config.DeviceID].
  rewrite getEnvOrDefault_empty. by rewrite decide_True.
Qed.

Lemma LoadConfig_set P (env : gmap string string) :
  config.os_Getenv env "WRALE_DEVICE_ID" ≠ "" →
  ∃ cfg, config.LoadConfig P env = (Some cfg, None) ∧
         config.DeviceID cfg = config.os_Getenv env "WRALE_DEVICE_ID".
Proof.
  intros He. unfold config.LoadConfig. cbv zeta. cbn [config.DeviceID].
  rewrite getEnvOrDefault_empty. rewrite decide_False by done.
  eexists. split; reflexivity.
Qed.

(** X12.  [LoadConfig] fails exactly when WRALE_DEVICE_ID is unset or set to
    the empty text: then it returns no configuration and the error
    "WRALE_DEVICE_ID is required".  Otherwise it returns a configuration and
    no error, and the device identifier is the variable's value; no other
    variable, and no text that fails to parse as a number, makes it fail. *)
Theorem LoadConfig_requires_only_the_device_id (ParseFloat : string → option float64)
    (env : gmap string string) :
  (env !! "WRALE_DEVICE_ID" = None ∨ env !! "WRALE_DEVICE_ID" = Some "" →
   config.LoadConfig ParseFloat env
     = (None, Some (errorString "WRALE_DEVICE_ID is required"))) ∧
  (∀ id, env !! "WRALE_DEVICE_ID" = Some id → id ≠ "" →
     ∃ cfg, config.LoadConfig ParseFloat env = (Some cfg, None) ∧
            config.DeviceID cfg = id).
Proof.
  split.
  - intros Hid. apply LoadConfig_unset.
    unfold config.os_Getenv. by destruct Hid as [-> | ->].
  - intros id Hid Hne.
    assert (He : config.os_Getenv env "WRALE_DEVICE_ID" = id).
    { unfold config.os_Getenv. by rewrite Hid. }
    destruct (LoadConfig_set ParseFloat env) as (cfg & Hload & Hdev).
    { by rewrite He. }
    exists cfg. by rewrite Hdev, He.
Qed.

(** An instance of X12: the sample environment, whose warn threshold does
    not parse. *)
Lemma LoadConfig_requires_only_the_device_id_witness :
  config.sample_environ !! "WRALE_DEVICE_ID" = Some "rpi-0042" ∧ "rpi-0042" ≠ "" ∧
  ∃ cfg, config.LoadConfig config.sample_parser config.sample_environ = (Some cfg, None) ∧
         config.DeviceID cfg = "rpi-0042".
Proof.
  assert (Hid : config.sample_environ !! "WRALE_DEVICE_ID" = Some "rpi-0042")
    by (vm_compute; reflexivity).
  assert (Hne : "rpi-0042" ≠ "") by discriminate.
  split; [exact Hid |]. split; [exact Hne |].
  exact (proj2 (LoadConfig_requires_only_the_device_id config.sample_parser
                  config.sample_environ) "rpi-0042" Hid Hne).
Defined.

(** X13.  [LoadConfig] sees the environment only through [os.Getenv] of the
    twenty-one variables it names: two environments in which each of them
    reads the same give the same result.  So a variable set to the empty text
    is as good as unset, and no other variable matters. *)
Theorem LoadConfig_reads_only_its_variables (ParseFloat : string → option float64)
    (env1 env2 : gmap string string) :
  (∀ key, key ∈ config.variables →
          config.os_Getenv env1 key = config.os_Getenv env2 key) →
  config.LoadConfig ParseFloat env1 = config.LoadConfig ParseFloat env2.
Proof.
  intros Hagree.
  assert (Hs : ∀ key d, key ∈ config.variables →
             config.getEnvOrDefault env1 key d = config.getEnvOrDefault env2 key d).
  { intros key d Hk. by apply getEnvOrDefault_agree, Hagree. }
  assert (Hf : ∀ key d, key ∈ config.variables →
             config.getEnvFloatOrDefault ParseFloat env1 key d
               = config.getEnvFloatOrDefault ParseFloat env2 key d).
  { intros key d Hk. by apply getEnvFloatOrDefault_agree, Hagree. }
  unfold config.LoadConfig.
  rewrite !Hs by (apply (bool_decide_unpack _); vm_compute; exact I).
  rewrite !Hf by (apply (bool_decide_unpack _); vm_compute; exact I).
  reflexivity.
Qed.

(** An instance of X13: the sample environment, and the same with the
    location unset and a variable the program does not read. *)
Lemma LoadConfig_reads_only_its_variables_witness :
  config.LoadConfig config.sample_parser config.sample_environ
    = config.LoadConfig config.sample_parser
        (<["HOME" := "/root"]> (delete "WRALE_LOCATION" config.sample_environ)).
Proof.
  apply LoadConfig_reads_only_its_variables.
  intros key Hin. unfold config.variables in Hin.
  repeat (apply elem_of_cons in Hin as [-> | Hin]; [vm_compute; reflexivity |]).
  by apply elem_of_nil in Hin.
Defined.

(** X14.  In a configuration that [LoadConfig] returns, the device
    identifier, the log level, the listen address, the four GPIO pins, the
    three ADC paths and the three sensor paths are never empty: an unset or
    empty variable leaves the default.  The location and the TLS files have
    no default and are what the environment says. *)
Theorem LoadConfig_fills_the_defaults (ParseFloat : string → option float64)
    (env : gmap string string) (cfg : config.Config) :
  config.LoadConfig ParseFloat env = (Some cfg, None) →
  Forall (λ field, field ≠ "")
    [config.DeviceID cfg; config.LogLevel cfg; config.HTTPAddr cfg;
     config.FanPin (config.GPIO cfg); config.CaseSensor (config.GPIO cfg);
     config.MotionSensor (config.GPIO cfg); config.VoltageSensor (config.GPIO cfg);
     config.BatteryADCPath (config.Power cfg); config.VoltageADCPath (config.Power cfg);
     config.CurrentADCPath (config.Power cfg);
     config.CPUTempPath (config.Thermal cfg); config.GPUTempPath (config.Thermal cfg);
     config.AmbientTempPath (config.Thermal cfg)] ∧
  config.Location cfg = config.os_Getenv env "WRALE_LOCATION" ∧
  config.TLSCert cfg = config.os_Getenv env "WRALE_TLS_CERT" ∧
  config.TLSKey cfg = config.os_Getenv env "WRALE_TLS_KEY" ∧
  (env !! "WRALE_LOG_LEVEL" = None → config.LogLevel cfg = "info") ∧
  (env !! "WRALE_HTTP_ADDR" = None → config.HTTPAddr cfg = ":8080").
Proof.
  intros Hload. unfold config.LoadConfig in Hload. cbv zeta in Hload.
  cbn [config.DeviceID] in Hload.
  destruct (decide (config.getEnvOrDefault env "WRALE_DEVICE_ID" "" = "")) as [| Hid];
    [discriminate Hload |].
  injection Hload as <-.
  cbn [config.DeviceID config.LogLevel config.HTTPAddr config.Location config.TLSCert
       config.TLSKey config.GPIO config.Power config.Thermal config.FanPin
       config.CaseSensor config.MotionSensor config.VoltageSensor config.BatteryADCPath
       config.VoltageADCPath config.CurrentADCPath config.CPUTempPath config.GPUTempPath
       config.AmbientTempPath].
  split_and!.
  - repeat first [apply Forall_nil_2
                 | apply Forall_cons_2;
                   [first [exact Hid | by apply getEnvOrDefault_nonempty] |]].
  - apply getEnvOrDefault_empty.
  - apply getEnvOrDefault_empty.
  - apply getEnvOrDefault_empty.
  - intros Hnone. apply getEnvOrDefault_unset. unfold config.os_Getenv. by rewrite Hnone.
  - intros Hnone. apply getEnvOrDefault_unset. unfold config.os_Getenv. by rewrite Hnone.
Qed.

(** An instance of X14: the sample environment. *)
Lemma LoadConfig_fills_the_defaults_witness :
  ∃ cfg, config.LoadConfig config.sample_parser config.sample_environ = (Some cfg, None) ∧
         config.HTTPAddr cfg ≠ "" ∧ config.Location cfg = "".
Proof.
  destruct (config.LoadConfig config.sample_parser config.sample_environ)
    as [[cfg |] [e |]] eqn:Hload; try (vm_compute in Hload; discriminate Hload).
  exists cfg. split; [reflexivity |].
  destruct (LoadConfig_fills_the_defaults config.sample_parser config.sample_environ cfg
              Hload) as (Hall & Hloc & _).
  split.
  - exact (Forall_lookup_1 _ _ 2%nat _ Hall eq_refl).
  - rewrite Hloc. vm_compute. reflexivity.
Defined.

Ltac threshold_case P env Hp :=
  match goal with
  | |- config.LoadConfig _ (delete ?key _) = _ =>
      unfold config.LoadConfig;
      rewrite (getEnvFloatOrDefault_unparsed P (delete key env) key)
        by (left; apply os_Getenv_delete_eq);
      rewrite (getEnvFloatOrDefault_unparsed P env key) by (right; exact Hp);
      rewrite !(getEnvOrDefault_agree (delete key env) env)
        by (apply os_Getenv_delete_ne, (bool_decide_unpack _); vm_compute; exact I);
      rewrite !(getEnvFloatOrDefault_agree P (delete key env) env)
        by (apply os_Getenv_delete_ne, (bool_decide_unpack _); vm_compute; exact I);
      reflexivity
  end.

(** X15.  A threshold whose variable holds text that [strconv.ParseFloat]
    refuses is silently as good as unset: [LoadConfig] returns what it
    returns without the variable, so the threshold is its default and no
    error says that the text was ignored. *)
Theorem unparsed_threshold_is_as_unset (ParseFloat : string → option float64)
    (env : gmap string string) (key : string) :
  key ∈ ["WRALE_POWER_WARN_LEVEL"; "WRALE_POWER_CRITICAL_LEVEL";
         "WRALE_THERMAL_FAN_THRESHOLD"; "WRALE_THERMAL_WARN_THRESHOLD";
         "WRALE_THERMAL_CRITICAL_THRESHOLD"] →
  ParseFloat (config.os_Getenv env key) = None →
  config.LoadConfig ParseFloat (delete key env) = config.LoadConfig ParseFloat env.
Proof.
  intros Hin Hp.
  repeat (apply elem_of_cons in Hin as [-> | Hin];
          [threshold_case ParseFloat env Hp |]).
  by apply elem_of_nil in Hin.
Qed.

(** An instance of X15: the sample environment, whose thermal warn threshold
    reads "hot". *)
Lemma unparsed_threshold_is_as_unset_witness :
  config.LoadConfig config.sample_parser
    (delete "WRALE_THERMAL_WARN_THRESHOLD" config.sample_environ)
  = config.LoadConfig config.sample_parser config.sample_environ.
Proof.
  apply unparsed_threshold_is_as_unset.
  - apply (bool_decide_unpack _). vm_compute. exact I.
  - vm_compute. reflexivity.
Defined.
